(** * lcl_array.h: single-block 2D and 3D arrays

    A shallow embedding of [lcl_array2d_init] and [lcl_array3d_init]
    (src/lcl_array.h) over a byte-addressed memory, with [size_t]
    arithmetic written out as arithmetic modulo [SIZE_MAX + 1].

    Conventions.
    - [size_t] values are integers in [[0, SIZE_MAX]]; [*] and [+] on them
      wrap.
    - An address is an integer, [0] is [NULL].  A pointer is stored in
      memory as [ptr_size] bytes, least significant byte first.
    - The host's [calloc] is a function from the two arguments of the call
      to the address it returns.  The block it hands out is
      [[base, base + nmemb * size)] and reads as zero.
    - Pointer arithmetic that leaves the block (beyond one past its end)
      and accesses that are not inside the block are undefined behaviour;
      the embedding stops with [Undefined] there. *)

From Stdlib Require Import ZArith List Lia Bool.
Import ListNotations.
Local Open Scope Z_scope.

(** ** Memory *)

Definition mem := Z -> Z.

Record block := mkblock { blk_base : Z; blk_len : Z }.

(** [inside b a n]: the [n] bytes at [a] lie in block [b]. *)
Definition inside (b : block) (a n : Z) : bool :=
  (blk_base b <=? a) && (a + n <=? blk_base b + blk_len b).

(** What [calloc] does to memory: the bytes of the new block read zero. *)
Definition zero_fill (m : mem) (b : block) : mem :=
  fun a => if inside b a 1 then 0 else m a.

(** Pointer arithmetic [p + n] (with [n] already scaled to bytes), by the
    rules of the C abstract machine: the result must lie in the block or
    one past its end.  Runs that never leave the block, as all runs within
    the contract below, are not affected by this choice; for the others the
    model says [Undefined] and nothing more. *)
Definition ptr_add (b : block) (p n : Z) : option Z :=
  if inside b (p + n) 0 then Some (p + n) else None.

Definition obind {A B} (o : option A) (k : A -> option B) : option B :=
  match o with Some a => k a | None => None end.

Notation "x <- e ;; k" := (obind e (fun x => k))
  (at level 61, e at next level, right associativity).

(** [for (size_t i = 0; i < n; i++) body]: [for_upto] runs [k] more
    iterations from index [i].  The index stays below the [size_t] bound
    [n], so [i++] does not wrap. *)
Fixpoint for_upto (k : nat) (i : Z) (body : Z -> mem -> option mem)
    (m : mem) : option mem :=
  match k with
  | O => Some m
  | S k' => m' <- body i m ;; for_upto k' (i + 1) body m'
  end.

Definition for_loop (n : Z) (body : Z -> mem -> option mem) (m : mem)
    : option mem :=
  for_upto (Z.to_nat n) 0 body m.

(** Element values are byte strings. *)
Definition set_bytes (m : mem) (a : Z) (bs : list Z) : mem :=
  fun x =>
    if (a <=? x) && (x <? a + Z.of_nat (length bs))
    then nth (Z.to_nat (x - a)) bs 0
    else m x.

Definition get_bytes (m : mem) (a : Z) (n : Z) : list Z :=
  map (fun i => m (a + Z.of_nat i)) (seq 0 (Z.to_nat n)).

(** The bytes of a block, in address order. *)
Definition block_bytes (m : mem) (b : block) : list Z :=
  get_bytes m (blk_base b) (blk_len b).

(** ** Results of a call *)

Inductive outcome :=
| Null                          (* [return NULL] *)
| Handle (array : Z) (m : mem)  (* [return array], with the memory left *)
| Undefined.                    (* out-of-block arithmetic or access *)

(** A run: the [calloc] calls made, as [(nmemb, size)], and the outcome. *)
Record run := mkrun { requests : list (Z * Z); result : outcome }.

(** ** Two hosts, for running the model *)

(** A host that places every block at address 4096. *)
Definition calloc_at_4096 (nmemb size : Z) : Z := 4096.

(** A host whose [calloc] returns [NULL] for a request of zero bytes, as
    the C standard allows. *)
Definition calloc_null_on_zero (nmemb size : Z) : Z :=
  if nmemb * size =? 0 then 0 else 4096.

(** Memory before a call: every byte [0xFF], or every byte [0]. *)
Definition dirty_mem : mem := fun _ => 255.
Definition clean_mem : mem := fun _ => 0.

Section Platform.

(** Width of [size_t] in bits and [sizeof(unsigned char * )] in bytes
    ([sizeof(unsigned char ** )] is the same). *)
Variable size_bits : Z.
Variable ptr_size : Z.

Definition SIZE_MAX : Z := 2 ^ size_bits - 1.

Definition wrap (x : Z) : Z := x mod (SIZE_MAX + 1).
Definition size_mul (a b : Z) : Z := wrap (a * b).
Definition size_add (a b : Z) : Z := wrap (a + b).

(** *** Pointers in memory *)

Definition byte_of (p i : Z) : Z := (p / 256 ^ i) mod 256.

Definition set_ptr (m : mem) (a p : Z) : mem :=
  fun x =>
    if (a <=? x) && (x <? a + ptr_size) then byte_of p (x - a) else m x.

Fixpoint le_sum (m : mem) (a : Z) (n : nat) : Z :=
  match n with
  | O => 0
  | S k => m a + 256 * le_sum m (a + 1) k
  end.

Definition get_ptr (m : mem) (a : Z) : Z := le_sum m a (Z.to_nat ptr_size).

Definition store_ptr (b : block) (m : mem) (a p : Z) : option mem :=
  if inside b a ptr_size then Some (set_ptr m a p) else None.

Definition load_ptr (b : block) (m : mem) (a : Z) : option Z :=
  if inside b a ptr_size then Some (get_ptr m a) else None.

(** The exact (unbounded) sizes the two computations aim at. *)
Definition total2d (rows cols type_size : Z) : Z :=
  rows * ptr_size + rows * cols * type_size.

Definition total3d (layers rows cols type_size : Z) : Z :=
  layers * ptr_size + layers * rows * ptr_size
  + layers * rows * cols * type_size.

(** *** lcl_array2d_init *)

(** Lines 72-73. *)
Definition alloc_len2d (rows cols type_size : Z) : Z :=
  size_add (size_mul rows ptr_size)
           (size_mul (size_mul rows cols) type_size).

(** Line 82, one iteration:
    [array[row] = rows_start + row * cols * type_size]. *)
Definition fill_row (b : block) (array rows_start cols type_size : Z)
    (row : Z) (m : mem) : option mem :=
  v <- ptr_add b rows_start (size_mul (size_mul row cols) type_size) ;;
  store_ptr b m (array + row * ptr_size) v.

Definition lcl_array2d_init (calloc : Z -> Z -> Z) (m0 : mem)
    (rows cols type_size : Z) : run :=
  let alloc_len := alloc_len2d rows cols type_size in
  let array := calloc 1 alloc_len in
  mkrun [(1, alloc_len)]
    (if array =? 0 then Null
     else
       let b := mkblock array (1 * alloc_len) in
       let m := zero_fill m0 b in
       match
         rows_start <- ptr_add b array (rows * ptr_size) ;;
         for_loop rows (fill_row b array rows_start cols type_size) m
       with
       | Some m' => Handle array m'
       | None => Undefined
       end).

(** *** lcl_array3d_init *)

(** Lines 90-92. *)
Definition alloc_len3d (layers rows cols type_size : Z) : Z :=
  size_add
    (size_add (size_mul layers ptr_size)
              (size_mul (size_mul layers rows) ptr_size))
    (size_mul (size_mul (size_mul layers rows) cols) type_size).

(** Line 101, one iteration: [array[layer] = rows_start + layer * rows],
    arithmetic on [unsigned char **]. *)
Definition fill_layer (b : block) (array rows_start rows : Z)
    (layer : Z) (m : mem) : option mem :=
  v <- ptr_add b rows_start (size_mul layer rows * ptr_size) ;;
  store_ptr b m (array + layer * ptr_size) v.

(** Lines 108-109, one iteration of the inner loop:
    [array[layer][row] = cols_start + type_size * (row + layer * rows) * cols];
    [array[layer]] is read back from memory. *)
Definition fill_layer_row (b : block)
    (array cols_start rows cols type_size layer : Z)
    (row : Z) (m : mem) : option mem :=
  p <- load_ptr b m (array + layer * ptr_size) ;;
  v <- ptr_add b cols_start
         (size_mul (size_mul type_size (size_add row (size_mul layer rows)))
                   cols) ;;
  store_ptr b m (p + row * ptr_size) v.

Definition lcl_array3d_init (calloc : Z -> Z -> Z) (m0 : mem)
    (layers rows cols type_size : Z) : run :=
  let alloc_len := alloc_len3d layers rows cols type_size in
  let array := calloc 1 alloc_len in
  mkrun [(1, alloc_len)]
    (if array =? 0 then Null
     else
       let b := mkblock array (1 * alloc_len) in
       let m := zero_fill m0 b in
       match
         rows_start <- ptr_add b array (layers * ptr_size) ;;
         m1 <- for_loop layers (fill_layer b array rows_start rows) m ;;
         cols_start <- ptr_add b rows_start
                         (size_mul (size_mul layers rows) ptr_size) ;;
         for_loop layers
           (fun layer =>
              for_loop rows
                (fill_layer_row b array cols_start rows cols type_size layer))
           m1
       with
       | Some m' => Handle array m'
       | None => Undefined
       end).

(** *** Layout and contracts *)

(** Where the code places the regions of a block at [array]:
    [rows_start] of the 2D routine, [rows_start] and [cols_start] of the
    3D routine. *)
Definition data_start2d (array rows : Z) : Z := array + rows * ptr_size.

Definition second_start3d (array layers : Z) : Z :=
  array + layers * ptr_size.

Definition data_start3d (array layers rows : Z) : Z :=
  second_start3d array layers + layers * rows * ptr_size.

(** The arguments are [size_t] values and the exact size is one too. *)
Definition fits2d (rows cols type_size : Z) : Prop :=
  0 <= rows /\ 0 <= cols /\ 0 <= type_size /\
  total2d rows cols type_size <= SIZE_MAX.

Definition fits3d (layers rows cols type_size : Z) : Prop :=
  0 <= layers /\ 0 <= rows /\ 0 <= cols /\ 0 <= type_size /\
  total3d layers rows cols type_size <= SIZE_MAX.

(** The host answers [calloc(1, len)] with a block at [base]: [base] is
    not [NULL], and the block and the address one past its end can be
    held in a pointer. *)
Definition grants (calloc : Z -> Z -> Z) (len base : Z) : Prop :=
  calloc 1 len = base /\ 0 < base /\ base + len < 256 ^ ptr_size.

(** A call of either routine, for statements about both. *)
Inductive call :=
| Array2d (rows cols type_size : Z)
| Array3d (layers rows cols type_size : Z).

Definition run_call (calloc : Z -> Z -> Z) (m0 : mem) (c : call) : run :=
  match c with
  | Array2d rows cols type_size =>
      lcl_array2d_init calloc m0 rows cols type_size
  | Array3d layers rows cols type_size =>
      lcl_array3d_init calloc m0 layers rows cols type_size
  end.

Definition alloc_len (c : call) : Z :=
  match c with
  | Array2d rows cols type_size => alloc_len2d rows cols type_size
  | Array3d layers rows cols type_size =>
      alloc_len3d layers rows cols type_size
  end.

Definition total (c : call) : Z :=
  match c with
  | Array2d rows cols type_size => total2d rows cols type_size
  | Array3d layers rows cols type_size =>
      total3d layers rows cols type_size
  end.

Definition fits (c : call) : Prop :=
  match c with
  | Array2d rows cols type_size => fits2d rows cols type_size
  | Array3d layers rows cols type_size =>
      fits3d layers rows cols type_size
  end.

Definition data_start (array : Z) (c : call) : Z :=
  match c with
  | Array2d rows _ _ => data_start2d array rows
  | Array3d layers rows _ _ => data_start3d array layers rows
  end.

(** Two byte ranges [(start, size)] share no byte. *)
Definition apart (r1 r2 : Z * Z) : Prop :=
  fst r1 + snd r1 <= fst r2 \/ fst r2 + snd r2 <= fst r1.

(** *** Subscripting a handle, as the header's examples do *)

(** Address of [handle[r][c]] for elements of [type_size] bytes. *)
Definition elem2d (b : block) (m : mem) (handle type_size r c : Z)
    : option Z :=
  p <- load_ptr b m (handle + r * ptr_size) ;;
  if inside b (p + c * type_size) type_size
  then Some (p + c * type_size) else None.

(** Address of [handle[l][r][c]]. *)
Definition elem3d (b : block) (m : mem) (handle type_size l r c : Z)
    : option Z :=
  p <- load_ptr b m (handle + l * ptr_size) ;;
  q <- load_ptr b m (p + r * ptr_size) ;;
  if inside b (q + c * type_size) type_size
  then Some (q + c * type_size) else None.

(** [handle[r][c] = v] and reading [handle[r][c]], [v] given by its bytes. *)
Definition write2d (b : block) (m : mem) (handle type_size r c : Z)
    (v : list Z) : option mem :=
  a <- elem2d b m handle type_size r c ;; Some (set_bytes m a v).

Definition read2d (b : block) (m : mem) (handle type_size r c : Z)
    : option (list Z) :=
  a <- elem2d b m handle type_size r c ;; Some (get_bytes m a type_size).

(** [handle[r][k]] or [handle[l][r][k]], by the routine that built the
    handle, and the index triples that name an element. *)
Definition elem_size (c : call) : Z :=
  match c with
  | Array2d _ _ type_size => type_size
  | Array3d _ _ _ type_size => type_size
  end.

Definition subscript (b : block) (m : mem) (handle : Z) (c : call)
    (l r k : Z) : option Z :=
  match c with
  | Array2d _ _ type_size => elem2d b m handle type_size r k
  | Array3d _ _ _ type_size => elem3d b m handle type_size l r k
  end.

Definition in_shape (c : call) (l r k : Z) : Prop :=
  match c with
  | Array2d rows cols _ => 0 <= r < rows /\ 0 <= k < cols
  | Array3d layers rows cols _ =>
      0 <= l < layers /\ 0 <= r < rows /\ 0 <= k < cols
  end.

(** *** Comparing runs *)

(** Two memories hold the same bytes throughout block [b]. *)
Definition agree (b : block) (m m' : mem) : Prop :=
  forall a, blk_base b <= a < blk_base b + blk_len b -> m a = m' a.

Definition agree_opt (b : block) (o o' : option mem) : Prop :=
  match o, o' with
  | Some m, Some m' => agree b m m'
  | None, None => True
  | _, _ => False
  end.

(** Two runs made the same requests and ended alike; where they return a
    block of [len] bytes it is at the same address and holds the same
    bytes. *)
Definition same_run (len : Z) (x y : run) : Prop :=
  requests x = requests y /\
  match result x, result y with
  | Null, Null => True
  | Undefined, Undefined => True
  | Handle a m, Handle a' m' =>
      a = a' /\ block_bytes m (mkblock a len) = block_bytes m' (mkblock a len)
  | _, _ => False
  end.

(** *** Using a block as an array *)

(** Position of an element in the flat data region, and the number of
    elements. *)
Definition linear_index (c : call) (l r k : Z) : Z :=
  match c with
  | Array2d _ cols _ => r * cols + k
  | Array3d _ rows cols _ => (l * rows + r) * cols + k
  end.

Definition elem_count (c : call) : Z :=
  match c with
  | Array2d rows cols _ => rows * cols
  | Array3d layers rows cols _ => layers * rows * cols
  end.

(** Two index triples name the same element ([l] plays no part in a 2D
    array). *)
Definition same_elem (c : call) (l r k l' r' k' : Z) : bool :=
  match c with
  | Array2d _ _ _ => (r =? r') && (k =? k')
  | Array3d _ _ _ _ => (l =? l') && (r =? r') && (k =? k')
  end.

(** [handle[..] = v] and reading [handle[..]], for either routine. *)
Definition write_elem (b : block) (m : mem) (handle : Z) (c : call)
    (l r k : Z) (v : list Z) : option mem :=
  a <- subscript b m handle c l r k ;; Some (set_bytes m a v).

Definition read_elem (b : block) (m : mem) (handle : Z) (c : call)
    (l r k : Z) : option (list Z) :=
  a <- subscript b m handle c l r k ;; Some (get_bytes m a (elem_size c)).

(** A run of assignments [handle[l][r][k] = v], first to last. *)
Fixpoint write_all (b : block) (m : mem) (handle : Z) (c : call)
    (ws : list (Z * Z * Z * list Z)) : option mem :=
  match ws with
  | [] => Some m
  | (l, r, k, v) :: ws' =>
      m' <- write_elem b m handle c l r k v ;;
      write_all b m' handle c ws'
  end.

(** The value an array, seen as a map from indices to values, holds at
    [(l, r, k)] after the assignments [ws], starting from [old]. *)
Fixpoint last_write (c : call) (ws : list (Z * Z * Z * list Z))
    (l r k : Z) (old : list Z) : list Z :=
  match ws with
  | [] => old
  | (l', r', k', v) :: ws' =>
      last_write c ws' l r k (if same_elem c l' r' k' l r k then v else old)
  end.

(** Every assignment of [ws] is to an element of the array and stores a
    value of the element size. *)
Definition writes_ok (c : call) (ws : list (Z * Z * Z * list Z)) : Prop :=
  Forall (fun w =>
            match w with
            | (l, r, k, v) =>
                in_shape c l r k /\ Z.of_nat (length v) = elem_size c
            end) ws.

(** ** Arithmetic helpers *)

Lemma slot_next (r j p : Z) : r < j -> 0 <= p -> r * p + p <= j * p.
Proof.
  intros Hr Hp.
  assert (0 <= (j - r - 1) * p) by (apply Z.mul_nonneg_nonneg; lia).
  lia.
Qed.

Lemma prod_mono (i n c : Z) : 0 <= i <= n -> 0 <= c -> i * c <= n * c.
Proof. intros Hi Hc. nia. Qed.

Lemma prod_nonneg3 (a b c : Z) : 0 <= a -> 0 <= b -> 0 <= c -> 0 <= a * b * c.
Proof. intros Ha Hb Hc. apply Z.mul_nonneg_nonneg; [nia | lia]. Qed.

Lemma prod_mono3 (i n c t : Z) :
  0 <= i <= n -> 0 <= c -> 0 <= t -> i * c * t <= n * c * t.
Proof.
  intros Hi Hc Ht.
  rewrite <- !Z.mul_assoc. apply prod_mono; [lia | nia].
Qed.

(** Row-major linear indices: [l * rows + r] stays below [layers * rows]. *)
Lemma linear_index_bound (l r layers rows : Z) :
  0 <= l < layers -> 0 <= r < rows ->
  0 <= l * rows + r /\ l * rows + r + 1 <= layers * rows.
Proof. intros Hl Hr. nia. Qed.

Lemma linear_index_inj (r c r' c' cols : Z) :
  0 <= c < cols -> 0 <= c' < cols ->
  r * cols + c = r' * cols + c' -> r = r' /\ c = c'.
Proof.
  intros Hc Hc' E.
  assert (Hr : r = r').
  { destruct (Z.lt_trichotomy r r') as [Hlt | [Heq | Hgt]];
      [exfalso | exact Heq | exfalso].
    - assert (r * cols + cols <= r' * cols) by (apply slot_next; lia). lia.
    - assert (r' * cols + cols <= r * cols) by (apply slot_next; lia). lia. }
  subst r'. split; [reflexivity | lia].
Qed.

(** ** Memory lemmas *)

Lemma inside_true (b : block) (a n : Z) :
  inside b a n = true <-> blk_base b <= a /\ a + n <= blk_base b + blk_len b.
Proof. unfold inside. rewrite andb_true_iff, !Z.leb_le. tauto. Qed.

Lemma zero_fill_in (m : mem) (b : block) (a : Z) :
  blk_base b <= a < blk_base b + blk_len b -> zero_fill m b a = 0.
Proof.
  intros H. unfold zero_fill.
  replace (inside b a 1) with true; [reflexivity |].
  symmetry. apply inside_true. lia.
Qed.

Lemma zero_fill_out (m : mem) (b : block) (a : Z) :
  ~ (blk_base b <= a < blk_base b + blk_len b) -> zero_fill m b a = m a.
Proof.
  intros H. unfold zero_fill.
  destruct (inside b a 1) eqn:E; [| reflexivity].
  apply inside_true in E. lia.
Qed.

Lemma ptr_add_in (b : block) (p n : Z) :
  blk_base b <= p + n <= blk_base b + blk_len b ->
  ptr_add b p n = Some (p + n).
Proof.
  intros H. unfold ptr_add.
  replace (inside b (p + n) 0) with true; [reflexivity |].
  symmetry. apply inside_true. lia.
Qed.

Lemma set_bytes_in (m : mem) (a : Z) (bs : list Z) (x : Z) :
  a <= x < a + Z.of_nat (length bs) ->
  set_bytes m a bs x = nth (Z.to_nat (x - a)) bs 0.
Proof.
  intros H. unfold set_bytes.
  replace ((a <=? x) && (x <? a + Z.of_nat (length bs))) with true;
    [reflexivity |].
  symmetry. rewrite andb_true_iff, Z.leb_le, Z.ltb_lt. lia.
Qed.

Lemma set_bytes_out (m : mem) (a : Z) (bs : list Z) (x : Z) :
  ~ (a <= x < a + Z.of_nat (length bs)) -> set_bytes m a bs x = m x.
Proof.
  intros H. unfold set_bytes.
  destruct ((a <=? x) && (x <? a + Z.of_nat (length bs))) eqn:E;
    [| reflexivity].
  rewrite andb_true_iff, Z.leb_le, Z.ltb_lt in E. lia.
Qed.

Lemma get_bytes_ext (m m' : mem) (a n : Z) :
  (forall x, a <= x < a + n -> m x = m' x) ->
  get_bytes m a n = get_bytes m' a n.
Proof.
  intros H. unfold get_bytes. apply map_ext_in.
  intros i Hi. apply in_seq in Hi. apply H. lia.
Qed.

Lemma get_set_bytes (m : mem) (a : Z) (bs : list Z) :
  get_bytes (set_bytes m a bs) a (Z.of_nat (length bs)) = bs.
Proof.
  unfold get_bytes. rewrite Nat2Z.id.
  set (f := fun i : nat => set_bytes m a bs (a + Z.of_nat i)).
  apply nth_ext with (d := f 0%nat) (d' := 0).
  - now rewrite length_map, length_seq.
  - intros i Hi. rewrite length_map, length_seq in Hi.
    rewrite map_nth, seq_nth by assumption. unfold f. simpl.
    rewrite set_bytes_in by lia.
    f_equal. lia.
Qed.

(** Loop invariants for [for_upto]. *)
Lemma for_upto_inv (I : Z -> mem -> Prop) (body : Z -> mem -> option mem)
    (n : Z) (k : nat) :
  forall (i : Z) (m : mem),
    i + Z.of_nat k = n ->
    I i m ->
    (forall j mj, i <= j < n -> I j mj ->
       exists m', body j mj = Some m' /\ I (j + 1) m') ->
    exists m', for_upto k i body m = Some m' /\ I n m'.
Proof.
  induction k as [| k IH]; intros i m Hn Hi Hstep.
  - exists m. simpl. split; [reflexivity |].
    replace n with i by lia. exact Hi.
  - destruct (Hstep i m) as [m1 [Hb H1]]; [lia | exact Hi |].
    destruct (IH (i + 1) m1) as [m2 [Hf H2]]; [lia | exact H1 | |].
    + intros j mj Hj. apply Hstep. lia.
    + exists m2. simpl. rewrite Hb. simpl. split; assumption.
Qed.

Lemma for_loop_inv (I : Z -> mem -> Prop) (body : Z -> mem -> option mem)
    (n : Z) (m : mem) :
  0 <= n ->
  I 0 m ->
  (forall j mj, 0 <= j < n -> I j mj ->
     exists m', body j mj = Some m' /\ I (j + 1) m') ->
  exists m', for_loop n body m = Some m' /\ I n m'.
Proof.
  intros Hn H0 Hstep. unfold for_loop.
  apply for_upto_inv with (n := n); [lia | exact H0 | exact Hstep].
Qed.

(** ** Facts that hold on every platform *)

Hypothesis size_bits_nonneg : 0 <= size_bits.
Hypothesis ptr_size_pos : 0 < ptr_size.

(** *** [size_t] arithmetic *)

Lemma modulus_pos : 0 < SIZE_MAX + 1.
Proof.
  unfold SIZE_MAX.
  pose proof (Z.pow_pos_nonneg 2 size_bits). lia.
Qed.

Lemma wrap_small (x : Z) : 0 <= x <= SIZE_MAX -> wrap x = x.
Proof. intros H. unfold wrap. apply Z.mod_small. lia. Qed.

Lemma wrap_range (x : Z) : 0 <= wrap x <= SIZE_MAX.
Proof.
  unfold wrap.
  pose proof (Z.mod_pos_bound x (SIZE_MAX + 1) modulus_pos). lia.
Qed.

Lemma wrap_mul_l (a b : Z) : wrap (wrap a * b) = wrap (a * b).
Proof. unfold wrap. apply Z.mul_mod_idemp_l. pose proof modulus_pos. lia. Qed.

Lemma wrap_mul_r (a b : Z) : wrap (a * wrap b) = wrap (a * b).
Proof. unfold wrap. apply Z.mul_mod_idemp_r. pose proof modulus_pos. lia. Qed.

Lemma wrap_add_l (a b : Z) : wrap (wrap a + b) = wrap (a + b).
Proof. unfold wrap. apply Z.add_mod_idemp_l. pose proof modulus_pos. lia. Qed.

Lemma wrap_add_r (a b : Z) : wrap (a + wrap b) = wrap (a + b).
Proof. unfold wrap. apply Z.add_mod_idemp_r. pose proof modulus_pos. lia. Qed.

(** Whatever the inputs, the computed length is the exact size reduced
    modulo [SIZE_MAX + 1]. *)
Lemma alloc_len2d_wrap (rows cols type_size : Z) :
  alloc_len2d rows cols type_size = wrap (total2d rows cols type_size).
Proof.
  unfold alloc_len2d, size_add, size_mul, total2d.
  rewrite (wrap_mul_l (rows * cols) type_size).
  now rewrite wrap_add_l, wrap_add_r.
Qed.

Lemma alloc_len3d_wrap (layers rows cols type_size : Z) :
  alloc_len3d layers rows cols type_size
  = wrap (total3d layers rows cols type_size).
Proof.
  unfold alloc_len3d, size_add, size_mul, total3d.
  rewrite (wrap_mul_l (layers * rows) cols).
  rewrite (wrap_mul_l (layers * rows * cols) type_size).
  rewrite (wrap_mul_l (layers * rows) ptr_size).
  rewrite (wrap_add_l (layers * ptr_size)).
  rewrite (wrap_add_r (layers * ptr_size) (layers * rows * ptr_size)).
  now rewrite wrap_add_l, wrap_add_r.
Qed.

Lemma row_offset_exact (row rows cols type_size : Z) :
  0 <= row <= rows -> 0 <= cols -> 0 <= type_size ->
  rows * cols * type_size <= SIZE_MAX ->
  size_mul (size_mul row cols) type_size = row * cols * type_size.
Proof.
  intros Hr Hc Ht Hmax. unfold size_mul.
  rewrite wrap_mul_l. apply wrap_small.
  pose proof (prod_mono3 row rows cols type_size Hr Hc Ht).
  pose proof (prod_nonneg3 row cols type_size). lia.
Qed.

(** *** Pointers in memory *)

Lemma set_ptr_in (m : mem) (a p x : Z) :
  a <= x < a + ptr_size -> set_ptr m a p x = byte_of p (x - a).
Proof.
  intros H. unfold set_ptr.
  replace ((a <=? x) && (x <? a + ptr_size)) with true; [reflexivity |].
  symmetry. rewrite andb_true_iff, Z.leb_le, Z.ltb_lt. lia.
Qed.

Lemma set_ptr_out (m : mem) (a p x : Z) :
  ~ (a <= x < a + ptr_size) -> set_ptr m a p x = m x.
Proof.
  intros H. unfold set_ptr.
  destruct ((a <=? x) && (x <? a + ptr_size)) eqn:E; [| reflexivity].
  rewrite andb_true_iff, Z.leb_le, Z.ltb_lt in E. lia.
Qed.

Lemma le_sum_ext (n : nat) :
  forall (m m' : mem) (a : Z),
    (forall i, 0 <= i < Z.of_nat n -> m (a + i) = m' (a + i)) ->
    le_sum m a n = le_sum m' a n.
Proof.
  induction n as [| n IH]; intros m m' a H; [reflexivity |].
  cbn [le_sum]. f_equal.
  - specialize (H 0). rewrite !Z.add_0_r in H. apply H. lia.
  - f_equal. apply IH. intros i Hi.
    replace (a + 1 + i) with (a + (1 + i)) by lia. apply H. lia.
Qed.

Lemma le_sum_bytes (n : nat) :
  forall (m : mem) (a p j : Z),
    0 <= j ->
    (forall i, 0 <= i < Z.of_nat n -> m (a + i) = byte_of p (j + i)) ->
    le_sum m a n = (p / 256 ^ j) mod 256 ^ Z.of_nat n.
Proof.
  induction n as [| n IH]; intros m a p j Hj H.
  - simpl. now rewrite Z.mod_1_r.
  - cbn [le_sum].
    rewrite (IH m (a + 1) p (j + 1)); [| lia |].
    + pose proof (H 0) as H0. rewrite !Z.add_0_r in H0.
      rewrite H0 by lia. unfold byte_of.
      rewrite Nat2Z.inj_succ, !Z.pow_add_r, !Z.pow_1_r by lia.
      rewrite <- Z.div_div by (try apply Z.pow_pos_nonneg; lia).
      rewrite Z.pow_succ_r by lia.
      rewrite Z.rem_mul_r; [reflexivity | lia |].
      apply Z.pow_pos_nonneg; lia.
    + intros i Hi.
      replace (a + 1 + i) with (a + (1 + i)) by lia.
      replace (j + 1 + i) with (j + (1 + i)) by lia.
      apply H. lia.
Qed.

Lemma get_ptr_ext (m m' : mem) (a : Z) :
  (forall x, a <= x < a + ptr_size -> m x = m' x) ->
  get_ptr m a = get_ptr m' a.
Proof.
  clear ptr_size_pos.
  intros H. unfold get_ptr. apply le_sum_ext.
  intros i Hi. apply H. lia.
Qed.

Lemma get_set_ptr (m : mem) (a p : Z) :
  0 <= p < 256 ^ ptr_size -> get_ptr (set_ptr m a p) a = p.
Proof.
  intros Hp. unfold get_ptr.
  rewrite (le_sum_bytes _ _ a p 0); [| lia |].
  - rewrite Z.pow_0_r, Z.div_1_r, Z2Nat.id by lia.
    apply Z.mod_small. exact Hp.
  - intros i Hi. rewrite set_ptr_in by lia. f_equal. lia.
Qed.

Lemma get_set_ptr_other (m : mem) (a a' p : Z) :
  a' + ptr_size <= a \/ a + ptr_size <= a' ->
  get_ptr (set_ptr m a p) a' = get_ptr m a'.
Proof.
  intros H. apply get_ptr_ext. intros x Hx. apply set_ptr_out. lia.
Qed.

Lemma store_ptr_in (b : block) (m : mem) (a p : Z) :
  blk_base b <= a -> a + ptr_size <= blk_base b + blk_len b ->
  store_ptr b m a p = Some (set_ptr m a p).
Proof.
  intros H1 H2. unfold store_ptr.
  replace (inside b a ptr_size) with true; [reflexivity |].
  symmetry. apply inside_true. lia.
Qed.

Lemma load_ptr_in (b : block) (m : mem) (a : Z) :
  blk_base b <= a -> a + ptr_size <= blk_base b + blk_len b ->
  load_ptr b m a = Some (get_ptr m a).
Proof.
  intros H1 H2. unfold load_ptr.
  replace (inside b a ptr_size) with true; [reflexivity |].
  symmetry. apply inside_true. lia.
Qed.

(** *** The block built by [lcl_array2d_init] *)

Lemma fits2d_parts (rows cols type_size : Z) :
  fits2d rows cols type_size ->
  0 <= rows * ptr_size /\ 0 <= rows * cols * type_size /\
  rows * cols * type_size <= SIZE_MAX /\
  alloc_len2d rows cols type_size = total2d rows cols type_size.
Proof.
  intros (Hr & Hc & Ht & Hmax). unfold total2d in *.
  assert (H1 : 0 <= rows * ptr_size) by (apply Z.mul_nonneg_nonneg; lia).
  pose proof (prod_nonneg3 rows cols type_size Hr Hc Ht) as H2.
  repeat split; try lia.
  rewrite alloc_len2d_wrap. apply wrap_small. unfold total2d. lia.
Qed.

(** After a call within the contract: every slot of the pointer table
    holds its row's address, and no byte outside the pointer table differs
    from what [calloc] left. *)
Lemma array2d_post (calloc : Z -> Z -> Z) (m0 : mem)
    (rows cols type_size base : Z) :
  fits2d rows cols type_size ->
  grants calloc (alloc_len2d rows cols type_size) base ->
  exists m,
    lcl_array2d_init calloc m0 rows cols type_size
    = mkrun [(1, total2d rows cols type_size)] (Handle base m)
    /\ (forall r, 0 <= r < rows ->
          get_ptr m (base + r * ptr_size)
          = data_start2d base rows + r * cols * type_size)
    /\ (forall a, ~ (base <= a < data_start2d base rows) ->
          m a = zero_fill m0 (mkblock base (total2d rows cols type_size)) a).
Proof.
  intros Hfit Hhost.
  destruct (fits2d_parts _ _ _ Hfit) as (Hp & Hd & Hdmax & Hlen).
  destruct Hfit as (Hr & Hc & Ht & Hmax).
  rewrite Hlen in Hhost. destruct Hhost as (Hcal & Hbase & Htop).
  unfold lcl_array2d_init. rewrite Hlen, Hcal, Z.mul_1_l.
  replace (base =? 0) with false by (symmetry; apply Z.eqb_neq; lia).
  set (len := total2d rows cols type_size) in *.
  set (b := mkblock base len).
  set (mz := zero_fill m0 b).
  assert (Hlen' : len = rows * ptr_size + rows * cols * type_size)
    by reflexivity.
  rewrite ptr_add_in by (simpl; lia). cbn [obind].
  fold (data_start2d base rows).
  set (D := data_start2d base rows).
  assert (HD : D = base + rows * ptr_size) by reflexivity.
  destruct (for_loop_inv
    (fun j m =>
       (forall r, 0 <= r < j ->
          get_ptr m (base + r * ptr_size) = D + r * cols * type_size)
       /\ (forall a, ~ (base <= a < base + j * ptr_size) -> m a = mz a))
    (fill_row b base D cols type_size) rows mz Hr) as [m [Hrun [Hs Hf]]].
  - split; [intros r Hr0; lia | reflexivity].
  - intros j mj Hj [Hs Hf].
    pose proof (prod_mono3 j rows cols type_size) as Hoff.
    pose proof (prod_nonneg3 j cols type_size) as Hoff0.
    pose proof (slot_next j rows ptr_size) as Hslot.
    assert (0 <= j * ptr_size) by (apply Z.mul_nonneg_nonneg; lia).
    unfold fill_row.
    rewrite (row_offset_exact j rows) by lia.
    rewrite ptr_add_in by (simpl; lia). cbn [obind].
    rewrite store_ptr_in by (simpl; lia).
    eexists. split; [reflexivity |]. split.
    + intros r Hr0. destruct (Z.eq_dec r j) as [-> | Hne].
      * apply get_set_ptr. lia.
      * pose proof (slot_next r j ptr_size).
        rewrite get_set_ptr_other by lia. apply Hs. lia.
    + intros a Ha. rewrite set_ptr_out by lia. apply Hf. lia.
  - exists m. rewrite Hrun. split; [reflexivity |]. split.
    + exact Hs.
    + intros a Ha. apply Hf. lia.
Qed.

(** *** The block built by [lcl_array3d_init] *)

Lemma fits3d_parts (layers rows cols type_size : Z) :
  fits3d layers rows cols type_size ->
  0 <= layers * ptr_size /\ 0 <= layers * rows /\
  layers * rows <= layers * rows * ptr_size /\
  0 <= layers * rows * cols * type_size /\
  alloc_len3d layers rows cols type_size
  = total3d layers rows cols type_size.
Proof.
  intros (Hl & Hr & Hc & Ht & Hmax). unfold total3d in *.
  assert (H1 : 0 <= layers * ptr_size) by (apply Z.mul_nonneg_nonneg; lia).
  assert (H2 : 0 <= layers * rows) by (apply Z.mul_nonneg_nonneg; lia).
  assert (H3 : layers * rows * 1 <= layers * rows * ptr_size)
    by (apply Z.mul_le_mono_nonneg_l; lia).
  assert (H4 : 0 <= layers * rows * cols * type_size)
    by (apply prod_nonneg3; lia).
  repeat split; try lia.
  rewrite alloc_len3d_wrap. apply wrap_small. unfold total3d. lia.
Qed.

Lemma layer_offset_exact (layer layers rows : Z) :
  0 <= layer <= layers -> 0 <= rows -> layers * rows <= SIZE_MAX ->
  size_mul layer rows = layer * rows.
Proof.
  intros Hl Hr Hmax. unfold size_mul. apply wrap_small.
  pose proof (prod_mono layer layers rows Hl Hr).
  assert (0 <= layer * rows) by (apply Z.mul_nonneg_nonneg; lia). lia.
Qed.

Lemma elem_offset_exact (layer row rows cols type_size k n : Z) :
  k = layer * rows + row -> 0 <= k <= n -> 0 <= cols -> 0 <= type_size ->
  n * cols * type_size <= SIZE_MAX ->
  size_mul (size_mul type_size (size_add row (size_mul layer rows))) cols
  = k * cols * type_size.
Proof.
  intros Hk Hkn Hc Ht Hmax. unfold size_mul, size_add.
  rewrite (wrap_add_r row (layer * rows)).
  rewrite (wrap_mul_r type_size (row + layer * rows)).
  rewrite (wrap_mul_l (type_size * (row + layer * rows)) cols).
  replace (type_size * (row + layer * rows) * cols)
    with (k * cols * type_size) by (subst k; ring).
  apply wrap_small.
  pose proof (prod_mono3 k n cols type_size Hkn Hc Ht).
  pose proof (prod_nonneg3 k cols type_size). lia.
Qed.

(** After a call within the contract: the top table holds the address of
    each layer's slice of the second table, slot [i] of the second table
    holds the address of row [i] of the data (rows counted across layers),
    and no byte outside the two tables differs from what [calloc] left. *)
Lemma array3d_post (calloc : Z -> Z -> Z) (m0 : mem)
    (layers rows cols type_size base : Z) :
  fits3d layers rows cols type_size ->
  grants calloc (alloc_len3d layers rows cols type_size) base ->
  exists m,
    lcl_array3d_init calloc m0 layers rows cols type_size
    = mkrun [(1, total3d layers rows cols type_size)] (Handle base m)
    /\ (forall l, 0 <= l < layers ->
          get_ptr m (base + l * ptr_size)
          = second_start3d base layers + l * rows * ptr_size)
    /\ (forall i, 0 <= i < layers * rows ->
          get_ptr m (second_start3d base layers + i * ptr_size)
          = data_start3d base layers rows + i * cols * type_size)
    /\ (forall a, ~ (base <= a < data_start3d base layers rows) ->
          m a
          = zero_fill m0 (mkblock base (total3d layers rows cols type_size)) a).
Proof.
  intros Hfit Hhost.
  destruct (fits3d_parts _ _ _ _ Hfit) as (Hp & Hn0 & Hnp & Hd & Hlen).
  destruct Hfit as (Hl & Hr & Hc & Ht & Hmax).
  rewrite Hlen in Hhost. destruct Hhost as (Hcal & Hbase & Htop).
  unfold lcl_array3d_init. rewrite Hlen, Hcal, Z.mul_1_l.
  replace (base =? 0) with false by (symmetry; apply Z.eqb_neq; lia).
  set (len := total3d layers rows cols type_size) in *.
  set (b := mkblock base len).
  set (mz := zero_fill m0 b).
  assert (Hlen' : len = layers * ptr_size + layers * rows * ptr_size
                        + layers * rows * cols * type_size) by reflexivity.
  set (n := layers * rows) in *.
  assert (Hnp0 : 0 <= n * ptr_size) by lia.
  rewrite ptr_add_in by (simpl; lia). cbn [obind].
  fold (second_start3d base layers).
  set (S := second_start3d base layers).
  assert (HS : S = base + layers * ptr_size) by reflexivity.
  (* first loop *)
  destruct (for_loop_inv
    (fun j m =>
       (forall l, 0 <= l < j ->
          get_ptr m (base + l * ptr_size) = S + l * rows * ptr_size)
       /\ (forall a, ~ (base <= a < base + j * ptr_size) -> m a = mz a))
    (fill_layer b base S rows) layers mz Hl) as [m1 [Hrun1 [Hs1 Hf1]]].
  { split; [intros l Hl0; lia | reflexivity]. }
  { intros j mj Hj [Hs Hf].
    assert (Hjr : 0 <= j * rows <= n)
      by (split; [apply Z.mul_nonneg_nonneg; lia | apply prod_mono; lia]).
    pose proof (prod_mono (j * rows) n ptr_size) as Hoff.
    assert (0 <= j * rows * ptr_size) by (apply Z.mul_nonneg_nonneg; lia).
    pose proof (slot_next j layers ptr_size) as Hslot.
    assert (0 <= j * ptr_size) by (apply Z.mul_nonneg_nonneg; lia).
    unfold fill_layer.
    rewrite (layer_offset_exact j layers) by (fold n; lia).
    rewrite ptr_add_in by (simpl; lia). cbn [obind].
    rewrite store_ptr_in by (simpl; lia).
    eexists. split; [reflexivity |]. split.
    - intros l Hl0. destruct (Z.eq_dec l j) as [-> | Hne].
      + apply get_set_ptr. lia.
      + pose proof (slot_next l j ptr_size).
        rewrite get_set_ptr_other by lia. apply Hs. lia.
    - intros a Ha. rewrite set_ptr_out by lia. apply Hf. lia. }
  rewrite Hrun1. cbn [obind].
  rewrite (layer_offset_exact layers layers) by (fold n; lia). fold n.
  unfold size_mul at 1. rewrite wrap_small by lia.
  rewrite ptr_add_in by (simpl; lia). cbn [obind].
  set (D := S + n * ptr_size).
  assert (HD : D = data_start3d base layers rows) by reflexivity.
  (* second loop: after [k] slots of the second table *)
  set (K := fun (k : Z) (m : mem) =>
       (forall i, 0 <= i < k ->
          get_ptr m (S + i * ptr_size) = D + i * cols * type_size)
       /\ (forall a, ~ (S <= a < S + k * ptr_size) -> m a = m1 a)).
  destruct (for_loop_inv (fun l m => K (l * rows) m)
    (fun layer =>
       for_loop rows
         (fill_layer_row b base D rows cols type_size layer))
    layers m1 Hl) as [m2 [Hrun2 [Hs2 Hf2]]].
  { split; [intros i Hi; lia | reflexivity]. }
  { intros l ml Hl0 HK.
    destruct (for_loop_inv (fun r m => K (l * rows + r) m)
      (fill_layer_row b base D rows cols type_size l) rows ml Hr)
      as [m' [Hrun' HK']].
    - now rewrite Z.add_0_r.
    - intros r mr Hr0 [Hs Hf].
      destruct (linear_index_bound l r layers rows Hl0 Hr0) as [Hk0 Hk1].
      fold n in Hk1.
      set (k := l * rows + r) in *.
      pose proof (slot_next k n ptr_size) as Hslot.
      pose proof (slot_next l layers ptr_size) as Hlslot.
      assert (0 <= k * ptr_size) by (apply Z.mul_nonneg_nonneg; lia).
      assert (0 <= l * ptr_size) by (apply Z.mul_nonneg_nonneg; lia).
      pose proof (prod_mono3 k n cols type_size) as Hoff.
      pose proof (prod_nonneg3 k cols type_size) as Hoff0.
      unfold fill_layer_row.
      rewrite load_ptr_in by (simpl; lia). cbn [obind].
      rewrite (get_ptr_ext mr m1)
        by (intros x Hx; apply Hf; lia).
      rewrite Hs1 by lia.
      rewrite (elem_offset_exact l r rows cols type_size k n)
        by (fold n; lia || reflexivity).
      rewrite ptr_add_in by (simpl; lia). cbn [obind].
      replace (S + l * rows * ptr_size + r * ptr_size)
        with (S + k * ptr_size) by (subst k; ring).
      rewrite store_ptr_in by (simpl; lia).
      eexists. split; [reflexivity |]. split.
      + intros i Hi. destruct (Z.eq_dec i k) as [-> | Hne].
        * apply get_set_ptr. lia.
        * pose proof (slot_next i k ptr_size).
          rewrite get_set_ptr_other by lia. apply Hs. lia.
      + intros a Ha. rewrite set_ptr_out by lia. apply Hf. lia.
    - exists m'. split; [exact Hrun' |].
      replace ((l + 1) * rows) with (l * rows + rows) by ring. exact HK'. }
  exists m2. rewrite Hrun2. split; [reflexivity |]. fold n in Hs2, Hf2.
  split; [| split].
  - intros l Hl0.
    pose proof (slot_next l layers ptr_size).
    assert (0 <= l * ptr_size) by (apply Z.mul_nonneg_nonneg; lia).
    rewrite (get_ptr_ext m2 m1) by (intros x Hx; apply Hf2; lia).
    apply Hs1. lia.
  - exact Hs2.
  - intros a Ha. rewrite Hf2 by lia. apply Hf1. lia.
Qed.

(** *** Subscripting the blocks *)

(** Element [c] of row [k] (rows counted from the start of the data) lies
    inside a data region of [n] rows. *)
Lemma elem_bound (k n cols c type_size : Z) :
  0 <= k -> k + 1 <= n -> 0 <= c < cols -> 0 <= type_size ->
  0 <= (k * cols + c) * type_size /\
  (k * cols + c) * type_size + type_size <= n * cols * type_size.
Proof.
  intros Hk Hkn Hc Ht.
  destruct (linear_index_bound k c n cols) as [H0 H1]; [lia | lia |].
  split.
  - apply Z.mul_nonneg_nonneg; lia.
  - apply slot_next; lia.
Qed.

Lemma array2d_built (calloc : Z -> Z -> Z) (m0 : mem)
    (rows cols type_size base : Z) :
  fits2d rows cols type_size ->
  grants calloc (alloc_len2d rows cols type_size) base ->
  let b := mkblock base (alloc_len2d rows cols type_size) in
  let D := data_start2d base rows in
  exists m,
    result (lcl_array2d_init calloc m0 rows cols type_size) = Handle base m
    /\ D + rows * cols * type_size
       = base + alloc_len2d rows cols type_size
    /\ (forall r, 0 <= r < rows ->
          load_ptr b m (base + r * ptr_size)
          = Some (D + r * cols * type_size))
    /\ (forall r c, 0 <= r < rows -> 0 <= c < cols ->
          elem2d b m base type_size r c
          = Some (D + (r * cols + c) * type_size))
    /\ (forall a, ~ (base <= a < D) -> m a = zero_fill m0 b a).
Proof.
  intros Hfit Hhost b D.
  destruct (array2d_post calloc m0 _ _ _ _ Hfit Hhost) as (m & Hrun & Hs & Hf).
  destruct (fits2d_parts _ _ _ Hfit) as (Hp & Hd & Hdmax & Hlen).
  destruct Hfit as (Hr & Hc & Ht & Hmax).
  assert (HD : D = base + rows * ptr_size) by reflexivity.
  assert (Hb : blk_base b = base /\
               blk_len b = rows * ptr_size + rows * cols * type_size)
    by (subst b; simpl; rewrite Hlen; split; reflexivity).
  destruct Hb as [Hb1 Hb2].
  assert (Hload : forall r, 0 <= r < rows ->
            load_ptr b m (base + r * ptr_size)
            = Some (D + r * cols * type_size)).
  { intros r Hr0.
    pose proof (slot_next r rows ptr_size).
    assert (0 <= r * ptr_size) by (apply Z.mul_nonneg_nonneg; lia).
    rewrite load_ptr_in by lia. f_equal. apply Hs. exact Hr0. }
  exists m. rewrite Hrun. split; [reflexivity |].
  split; [rewrite Hlen; unfold total2d; lia |].
  split; [exact Hload |]. split.
  - intros r c Hr0 Hc0. unfold elem2d. rewrite Hload by exact Hr0.
    cbn [obind].
    destruct (elem_bound r rows cols c type_size) as [He0 He1]; try lia.
    replace (D + r * cols * type_size + c * type_size)
      with (D + (r * cols + c) * type_size) by ring.
    replace (inside b (D + (r * cols + c) * type_size) type_size) with true;
      [reflexivity |].
    symmetry. apply inside_true. lia.
  - intros a Ha. subst b. rewrite Hlen. apply Hf. exact Ha.
Qed.

Lemma array3d_built (calloc : Z -> Z -> Z) (m0 : mem)
    (layers rows cols type_size base : Z) :
  fits3d layers rows cols type_size ->
  grants calloc (alloc_len3d layers rows cols type_size) base ->
  let b := mkblock base (alloc_len3d layers rows cols type_size) in
  let S := second_start3d base layers in
  let D := data_start3d base layers rows in
  exists m,
    result (lcl_array3d_init calloc m0 layers rows cols type_size)
    = Handle base m
    /\ D + layers * rows * cols * type_size
       = base + alloc_len3d layers rows cols type_size
    /\ (forall l, 0 <= l < layers ->
          load_ptr b m (base + l * ptr_size)
          = Some (S + l * rows * ptr_size))
    /\ (forall l r, 0 <= l < layers -> 0 <= r < rows ->
          load_ptr b m (S + (l * rows + r) * ptr_size)
          = Some (D + (l * rows + r) * cols * type_size))
    /\ (forall l r c, 0 <= l < layers -> 0 <= r < rows -> 0 <= c < cols ->
          elem3d b m base type_size l r c
          = Some (D + ((l * rows + r) * cols + c) * type_size))
    /\ (forall a, ~ (base <= a < D) -> m a = zero_fill m0 b a).
Proof.
  intros Hfit Hhost b S D.
  destruct (array3d_post calloc m0 _ _ _ _ _ Hfit Hhost)
    as (m & Hrun & Hs1 & Hs2 & Hf).
  destruct (fits3d_parts _ _ _ _ Hfit) as (Hp & Hn0 & Hnp & Hd & Hlen).
  destruct Hfit as (Hl & Hr & Hc & Ht & Hmax).
  assert (HS : S = base + layers * ptr_size) by reflexivity.
  assert (HD : D = S + layers * rows * ptr_size) by reflexivity.
  assert (Hb : blk_base b = base /\
               blk_len b = layers * ptr_size + layers * rows * ptr_size
                           + layers * rows * cols * type_size)
    by (subst b; simpl; rewrite Hlen; split; reflexivity).
  destruct Hb as [Hb1 Hb2].
  assert (Hload1 : forall l, 0 <= l < layers ->
            load_ptr b m (base + l * ptr_size)
            = Some (S + l * rows * ptr_size)).
  { intros l Hl0.
    pose proof (slot_next l layers ptr_size).
    assert (0 <= l * ptr_size) by (apply Z.mul_nonneg_nonneg; lia).
    rewrite load_ptr_in by lia. f_equal. apply Hs1. exact Hl0. }
  assert (Hload2 : forall l r, 0 <= l < layers -> 0 <= r < rows ->
            load_ptr b m (S + (l * rows + r) * ptr_size)
            = Some (D + (l * rows + r) * cols * type_size)).
  { intros l r Hl0 Hr0.
    destruct (linear_index_bound l r layers rows Hl0 Hr0) as [Hk0 Hk1].
    pose proof (slot_next (l * rows + r) (layers * rows) ptr_size).
    assert (0 <= (l * rows + r) * ptr_size)
      by (apply Z.mul_nonneg_nonneg; lia).
    rewrite load_ptr_in by lia. f_equal. apply Hs2. lia. }
  exists m. rewrite Hrun. split; [reflexivity |].
  split; [rewrite Hlen; unfold total3d; lia |].
  split; [exact Hload1 |]. split; [exact Hload2 |]. split.
  - intros l r c Hl0 Hr0 Hc0. unfold elem3d.
    rewrite Hload1 by exact Hl0. cbn [obind].
    replace (S + l * rows * ptr_size + r * ptr_size)
      with (S + (l * rows + r) * ptr_size) by ring.
    rewrite Hload2 by assumption. cbn [obind].
    destruct (linear_index_bound l r layers rows Hl0 Hr0) as [Hk0 Hk1].
    destruct (elem_bound (l * rows + r) (layers * rows) cols c type_size)
      as [He0 He1]; try lia.
    set (k := l * rows + r) in *.
    replace (D + k * cols * type_size + c * type_size)
      with (D + (k * cols + c) * type_size) by ring.
    replace (inside b (D + (k * cols + c) * type_size) type_size) with true;
      [reflexivity |].
    symmetry. apply inside_true. lia.
  - intros a Ha. subst b. rewrite Hlen. apply Hf. exact Ha.
Qed.

Lemma load_ptr_ext (b : block) (m m' : mem) (a : Z) :
  (forall x, a <= x < a + ptr_size -> m x = m' x) ->
  load_ptr b m a = load_ptr b m' a.
Proof.
  intros H. unfold load_ptr.
  destruct (inside b a ptr_size); [| reflexivity].
  f_equal. apply get_ptr_ext. exact H.
Qed.

Lemma elem2d_ext (b : block) (m m' : mem) (handle type_size r c : Z) :
  (forall x, handle + r * ptr_size <= x < handle + r * ptr_size + ptr_size ->
     m x = m' x) ->
  elem2d b m handle type_size r c = elem2d b m' handle type_size r c.
Proof.
  intros H. unfold elem2d. now rewrite (load_ptr_ext b m m').
Qed.

(** *** Runs from different memories *)

Lemma zero_fill_agree (b : block) (m m' : mem) :
  agree b (zero_fill m b) (zero_fill m' b).
Proof. intros a Ha. now rewrite !zero_fill_in. Qed.

Lemma agree_block_bytes (b : block) (m m' : mem) :
  agree b m m' -> block_bytes m b = block_bytes m' b.
Proof.
  intros H. unfold block_bytes. apply get_bytes_ext.
  intros x Hx. apply H. exact Hx.
Qed.

Lemma store_ptr_agree (b : block) (m m' : mem) (a p : Z) :
  agree b m m' -> agree_opt b (store_ptr b m a p) (store_ptr b m' a p).
Proof.
  intros H. unfold store_ptr.
  destruct (inside b a ptr_size); simpl; [| trivial].
  intros x Hx. unfold set_ptr.
  destruct ((a <=? x) && (x <? a + ptr_size)); [reflexivity | now apply H].
Qed.

Lemma load_ptr_agree (b : block) (m m' : mem) (a : Z) :
  agree b m m' -> load_ptr b m a = load_ptr b m' a.
Proof.
  intros H. unfold load_ptr.
  destruct (inside b a ptr_size) eqn:E; [| reflexivity].
  apply inside_true in E. f_equal. apply get_ptr_ext.
  intros x Hx. apply H. lia.
Qed.

Lemma for_upto_agree (b : block) (body : Z -> mem -> option mem) (k : nat) :
  (forall j m m', agree b m m' -> agree_opt b (body j m) (body j m')) ->
  forall i m m',
    agree b m m' -> agree_opt b (for_upto k i body m) (for_upto k i body m').
Proof.
  intros Hbody. induction k as [| k IH]; intros i m m' H; simpl.
  - exact H.
  - specialize (Hbody i m m' H).
    destruct (body i m) as [m1 |], (body i m') as [m1' |]; simpl in *;
      try contradiction; [| trivial].
    apply IH. exact Hbody.
Qed.

Lemma for_loop_agree (b : block) (body : Z -> mem -> option mem) (n : Z) :
  (forall j m m', agree b m m' -> agree_opt b (body j m) (body j m')) ->
  forall m m',
    agree b m m' -> agree_opt b (for_loop n body m) (for_loop n body m').
Proof. intros Hbody m m' H. unfold for_loop. now apply for_upto_agree. Qed.

Lemma fill_row_agree (b : block) (array rows_start cols type_size : Z)
    (j : Z) (m m' : mem) :
  agree b m m' ->
  agree_opt b (fill_row b array rows_start cols type_size j m)
              (fill_row b array rows_start cols type_size j m').
Proof.
  intros H. unfold fill_row.
  destruct (ptr_add b rows_start _); simpl; [| trivial].
  apply store_ptr_agree. exact H.
Qed.

Lemma fill_layer_agree (b : block) (array rows_start rows : Z)
    (j : Z) (m m' : mem) :
  agree b m m' ->
  agree_opt b (fill_layer b array rows_start rows j m)
              (fill_layer b array rows_start rows j m').
Proof.
  intros H. unfold fill_layer.
  destruct (ptr_add b rows_start _); simpl; [| trivial].
  apply store_ptr_agree. exact H.
Qed.

Lemma fill_layer_row_agree (b : block)
    (array cols_start rows cols type_size layer : Z)
    (j : Z) (m m' : mem) :
  agree b m m' ->
  agree_opt b
    (fill_layer_row b array cols_start rows cols type_size layer j m)
    (fill_layer_row b array cols_start rows cols type_size layer j m').
Proof.
  intros H. unfold fill_layer_row.
  rewrite (load_ptr_agree b m m' _ H).
  destruct (load_ptr b m' _); simpl; [| trivial].
  destruct (ptr_add b cols_start _); simpl; [| trivial].
  apply store_ptr_agree. exact H.
Qed.

(** ** The claims *)

(** C1.  Within the contract (exact size representable, host grants the
    block), [lcl_array2d_init] leaves in slot [r] of the pointer table the
    address [rows_start + r * cols * type_size], where [rows_start] is the
    first byte after the [rows] pointer slots; hence [handle[r][c]] is
    element [r * cols + c] of the flat, row-major data region. *)
Theorem array2d_row_table (calloc : Z -> Z -> Z) (m0 : mem)
    (rows cols type_size base r c : Z) :
  fits2d rows cols type_size ->
  grants calloc (alloc_len2d rows cols type_size) base ->
  0 <= r < rows ->
  exists m,
    result (lcl_array2d_init calloc m0 rows cols type_size) = Handle base m
    /\ data_start2d base rows = base + rows * ptr_size
    /\ load_ptr (mkblock base (alloc_len2d rows cols type_size)) m
         (base + r * ptr_size)
       = Some (data_start2d base rows + r * cols * type_size)
    /\ (0 <= c < cols ->
        elem2d (mkblock base (alloc_len2d rows cols type_size)) m base
          type_size r c
        = Some (data_start2d base rows + (r * cols + c) * type_size)).
Proof.
  intros Hfit Hhost Hr.
  destruct (array2d_built calloc m0 _ _ _ _ Hfit Hhost)
    as (m & Hrun & _ & Hload & Helem & _).
  exists m. split; [exact Hrun |]. split; [reflexivity |].
  split; [apply Hload; exact Hr |].
  intros Hc. apply Helem; assumption.
Qed.

(** C2.  Within the contract, [lcl_array3d_init] leaves in top slot [l]
    the address [rows_start + l * rows * sizeof(pointer)] and in
    second-level slot [l * rows + r] the address
    [cols_start + type_size * cols * (r + l * rows)]; hence
    [handle[l][r][c]] is element [(l * rows + r) * cols + c] of the flat
    data region. *)
Theorem array3d_pointer_tables (calloc : Z -> Z -> Z) (m0 : mem)
    (layers rows cols type_size base l r c : Z) :
  fits3d layers rows cols type_size ->
  grants calloc (alloc_len3d layers rows cols type_size) base ->
  0 <= l < layers ->
  exists m,
    result (lcl_array3d_init calloc m0 layers rows cols type_size)
    = Handle base m
    /\ load_ptr (mkblock base (alloc_len3d layers rows cols type_size)) m
         (base + l * ptr_size)
       = Some (second_start3d base layers + l * rows * ptr_size)
    /\ (0 <= r < rows ->
        load_ptr (mkblock base (alloc_len3d layers rows cols type_size)) m
          (second_start3d base layers + (l * rows + r) * ptr_size)
        = Some (data_start3d base layers rows
                + type_size * cols * (r + l * rows)))
    /\ (0 <= r < rows -> 0 <= c < cols ->
        elem3d (mkblock base (alloc_len3d layers rows cols type_size)) m base
          type_size l r c
        = Some (data_start3d base layers rows
                + ((l * rows + r) * cols + c) * type_size)).
Proof.
  intros Hfit Hhost Hl.
  destruct (array3d_built calloc m0 _ _ _ _ _ Hfit Hhost)
    as (m & Hrun & _ & Hload1 & Hload2 & Helem & _).
  exists m. split; [exact Hrun |].
  split; [apply Hload1; exact Hl |]. split.
  - intros Hr. rewrite Hload2 by assumption. f_equal. ring.
  - intros Hr Hc. apply Helem; assumption.
Qed.

(** C4.  Within the contract, for every shape, the three regions of the
    block built by [lcl_array3d_init] (top pointers, second-level pointers,
    data) have sizes [>= 0], are adjacent, fill the block and pairwise
    share no byte.  Every top pointer the first loop wrote (one per layer,
    also when [rows = 0]) refers to a slice of [rows] slots that lies in
    the second-level region, and every second-level pointer the second
    loop wrote refers to a row of [cols] elements that lies in the data
    region. *)
Theorem array3d_regions (calloc : Z -> Z -> Z) (m0 : mem)
    (layers rows cols type_size base l r : Z) :
  fits3d layers rows cols type_size ->
  grants calloc (alloc_len3d layers rows cols type_size) base ->
  let b := mkblock base (alloc_len3d layers rows cols type_size) in
  let top := (base, layers * ptr_size) in
  let second := (second_start3d base layers, layers * rows * ptr_size) in
  let data := (data_start3d base layers rows,
               layers * rows * cols * type_size) in
  (0 <= snd top /\ 0 <= snd second /\ 0 <= snd data)
  /\ (fst top + snd top = fst second /\ fst second + snd second = fst data
      /\ fst data + snd data = blk_base b + blk_len b)
  /\ (apart top second /\ apart top data /\ apart second data)
  /\ exists m,
       result (lcl_array3d_init calloc m0 layers rows cols type_size)
       = Handle base m
       /\ (0 <= l < layers ->
           exists p,
             load_ptr b m (base + l * ptr_size) = Some p
             /\ fst second <= p
             /\ p + rows * ptr_size <= fst second + snd second
             /\ (0 <= r < rows ->
                 exists q,
                   load_ptr b m (p + r * ptr_size) = Some q
                   /\ fst data <= q
                   /\ q + cols * type_size <= fst data + snd data)).
Proof.
  intros Hfit Hhost b top second data.
  destruct (array3d_built calloc m0 _ _ _ _ _ Hfit Hhost)
    as (m & Hrun & Hend & Hload1 & Hload2 & _ & _).
  destruct (fits3d_parts _ _ _ _ Hfit) as (Hp & Hn0 & Hnp & Hd & Hlen).
  destruct Hfit as (Hl0 & Hr0 & Hc0 & Ht0 & Hmax).
  unfold apart. subst top second data. cbn [fst snd blk_base blk_len b].
  unfold data_start3d, second_start3d in *.
  assert (0 <= rows * ptr_size) by (apply Z.mul_nonneg_nonneg; lia).
  assert (0 <= cols * type_size) by (apply Z.mul_nonneg_nonneg; lia).
  repeat match goal with |- _ /\ _ => split end; try lia.
  exists m. split; [exact Hrun |].
  intros Hl.
  pose proof (slot_next l layers (rows * ptr_size) ltac:(lia) ltac:(lia))
    as Hslice.
  assert (0 <= l * (rows * ptr_size)) by (apply Z.mul_nonneg_nonneg; lia).
  exists (base + layers * ptr_size + l * rows * ptr_size).
  split; [apply Hload1; exact Hl |].
  split; [lia |]. split; [lia |].
  intros Hr.
  destruct (linear_index_bound l r layers rows Hl Hr) as [Hk0 Hk1].
  pose proof (slot_next (l * rows + r) (layers * rows) (cols * type_size)
                ltac:(lia) ltac:(lia)) as Hrow.
  assert (0 <= (l * rows + r) * (cols * type_size))
    by (apply Z.mul_nonneg_nonneg; lia).
  exists (base + layers * ptr_size + layers * rows * ptr_size
          + (l * rows + r) * cols * type_size).
  split.
  - rewrite <- (Hload2 l r Hl Hr). f_equal. ring.
  - split; lia.
Qed.

(** C5.  Within the contract, for either routine, every byte of the data
    region of the returned block is zero: it is as [calloc] left it, the
    loops that fill the pointer tables do not write there. *)
Theorem data_region_zero (calloc : Z -> Z -> Z) (m0 : mem) (c : call)
    (base a : Z) :
  fits c ->
  grants calloc (alloc_len c) base ->
  data_start base c <= a < base + alloc_len c ->
  exists m,
    result (run_call calloc m0 c) = Handle base m
    /\ m a = zero_fill m0 (mkblock base (alloc_len c)) a
    /\ m a = 0.
Proof.
  intros Hfit Hhost Ha.
  assert (H : exists m,
             result (run_call calloc m0 c) = Handle base m
             /\ base <= data_start base c
             /\ (forall x, ~ (base <= x < data_start base c) ->
                   m x = zero_fill m0 (mkblock base (alloc_len c)) x)).
  { destruct c as [rows cols type_size | layers rows cols type_size];
      cbn [fits alloc_len run_call data_start] in *.
    - destruct (array2d_built calloc m0 _ _ _ _ Hfit Hhost)
        as (m & Hrun & _ & _ & _ & Hf).
      destruct (fits2d_parts _ _ _ Hfit) as (Hp & _).
      exists m. unfold data_start2d in *. repeat split; [exact Hrun | lia | exact Hf].
    - destruct (array3d_built calloc m0 _ _ _ _ _ Hfit Hhost)
        as (m & Hrun & _ & _ & _ & _ & Hf).
      destruct (fits3d_parts _ _ _ _ Hfit) as (Hp & Hn0 & Hnp & _).
      exists m. unfold data_start3d, second_start3d in *.
      repeat split; [exact Hrun | lia | exact Hf]. }
  destruct H as (m & Hrun & Hle & Hf).
  exists m. split; [exact Hrun |].
  assert (Hm : m a = zero_fill m0 (mkblock base (alloc_len c)) a)
    by (apply Hf; lia).
  split; [exact Hm |].
  rewrite Hm. apply zero_fill_in. simpl. lia.
Qed.


(** C9 (as amended).  With [type_size = 0], [rows > 0] and
    [rows * sizeof(pointer)] representable in [size_t], a granted call of
    [lcl_array2d_init] returns the block, and every row pointer holds the
    same address: the start of the data region, which is also the end of
    the block. *)
Theorem zero_size_rows_alias (calloc : Z -> Z -> Z) (m0 : mem)
    (rows cols base r : Z) :
  0 < rows -> 0 <= cols ->
  rows * ptr_size <= SIZE_MAX ->
  grants calloc (alloc_len2d rows cols 0) base ->
  0 <= r < rows ->
  exists m,
    result (lcl_array2d_init calloc m0 rows cols 0) = Handle base m
    /\ load_ptr (mkblock base (alloc_len2d rows cols 0)) m
         (base + r * ptr_size)
       = Some (data_start2d base rows)
    /\ data_start2d base rows = base + alloc_len2d rows cols 0.
Proof.
  intros Hrows Hcols Hmax Hhost Hr.
  assert (Hfit : fits2d rows cols 0).
  { unfold fits2d, total2d. rewrite Z.mul_0_r. lia. }
  destruct (array2d_built calloc m0 _ _ _ _ Hfit Hhost)
    as (m & Hrun & Hend & Hload & _ & _).
  exists m. split; [exact Hrun |]. split.
  - rewrite (Hload r Hr). f_equal. rewrite Z.mul_0_r. lia.
  - rewrite <- Hend. rewrite Z.mul_0_r. lia.
Qed.

(** C6.  Within the contract, a value stored at [handle[r][c]] is the
    value read back from [handle[r][c]]; the bytes of any other element
    [handle[r'][c']] are apart from those of [handle[r][c]], and reading it
    gives what it gave before the store. *)
Theorem array2d_round_trip (calloc : Z -> Z -> Z) (m0 : mem)
    (rows cols type_size base r c r' c' : Z) (v : list Z) :
  fits2d rows cols type_size ->
  grants calloc (alloc_len2d rows cols type_size) base ->
  0 <= r < rows -> 0 <= c < cols ->
  Z.of_nat (length v) = type_size ->
  let b := mkblock base (alloc_len2d rows cols type_size) in
  exists m m' a,
    result (lcl_array2d_init calloc m0 rows cols type_size) = Handle base m
    /\ elem2d b m base type_size r c = Some a
    /\ write2d b m base type_size r c v = Some m'
    /\ read2d b m' base type_size r c = Some v
    /\ (0 <= r' < rows -> 0 <= c' < cols -> (r', c') <> (r, c) ->
        exists a',
          elem2d b m base type_size r' c' = Some a'
          /\ apart (a, type_size) (a', type_size)
          /\ read2d b m' base type_size r' c'
             = read2d b m base type_size r' c').
Proof.
  intros Hfit Hhost Hr Hc Hv b.
  destruct (array2d_built calloc m0 _ _ _ _ Hfit Hhost)
    as (m & Hrun & Hend & _ & Helem & _). fold b in Helem.
  destruct (fits2d_parts _ _ _ Hfit) as (Hp & Hd & Hdmax & Hlen).
  destruct Hfit as (Hr0 & Hc0 & Ht0 & Hmax).
  set (D := data_start2d base rows) in *.
  assert (HD : D = base + rows * ptr_size) by reflexivity.
  set (a := D + (r * cols + c) * type_size).
  destruct (elem_bound r rows cols c type_size) as [Ha0 Ha1]; try lia.
  (* the store leaves the pointer table alone *)
  assert (Hkeep : forall r1 c1, 0 <= r1 < rows ->
            elem2d b (set_bytes m a v) base type_size r1 c1
            = elem2d b m base type_size r1 c1).
  { intros r1 c1 Hr1. apply elem2d_ext. intros x Hx.
    pose proof (slot_next r1 rows ptr_size).
    apply set_bytes_out. lia. }
  exists m, (set_bytes m a v), a.
  split; [exact Hrun |].
  split; [apply Helem; assumption |].
  split; [unfold write2d; rewrite Helem by assumption; reflexivity |].
  split.
  - unfold read2d. rewrite Hkeep, Helem by assumption. cbn [obind].
    fold a. rewrite <- Hv. now rewrite get_set_bytes.
  - intros Hr' Hc' Hne.
    set (a' := D + (r' * cols + c') * type_size).
    destruct (elem_bound r' rows cols c' type_size) as [Hb0 Hb1]; try lia.
    assert (Hapart : a + type_size <= a' \/ a' + type_size <= a).
    { assert (Hidx : r * cols + c <> r' * cols + c').
      { intros E. apply Hne.
        destruct (linear_index_inj r c r' c' cols Hc Hc' E) as [-> ->].
        reflexivity. }
      destruct (Z.lt_trichotomy (r * cols + c) (r' * cols + c'))
        as [Hlt | [Heq | Hgt]]; [left | contradiction | right].
      - pose proof (slot_next _ _ type_size Hlt Ht0). subst a a'. lia.
      - pose proof (slot_next _ _ type_size Hgt Ht0). subst a a'. lia. }
    exists a'. split; [apply Helem; assumption |].
    split; [exact Hapart |].
    unfold read2d. rewrite Hkeep, Helem by assumption. cbn [obind].
    fold a'. f_equal. apply get_bytes_ext.
    intros x Hx. apply set_bytes_out. lia.
Qed.

(** C10.  For either routine, two calls with the same arguments whose
    [calloc] returns the same address make the same request and end alike;
    the blocks they return hold the same bytes, whatever the memory was
    before each call and whatever else the two hosts would answer. *)
Theorem deterministic (calloc calloc' : Z -> Z -> Z) (m0 m0' : mem)
    (c : call) :
  calloc 1 (alloc_len c) = calloc' 1 (alloc_len c) ->
  same_run (alloc_len c) (run_call calloc m0 c) (run_call calloc' m0' c).
Proof.
  intros Hsame.
  destruct c as [rows cols type_size | layers rows cols type_size];
    cbn [alloc_len run_call] in *.
  - unfold same_run, lcl_array2d_init. cbn [requests result].
    rewrite <- Hsame. split; [reflexivity |].
    set (len := alloc_len2d rows cols type_size).
    set (array := calloc 1 len).
    destruct (array =? 0); [exact I |].
    rewrite Z.mul_1_l. set (b := mkblock array len).
    destruct (ptr_add b array (rows * ptr_size)) as [rows_start |];
      cbn [obind]; [| exact I].
    pose proof (for_loop_agree b
      (fill_row b array rows_start cols type_size) rows
      (fill_row_agree b array rows_start cols type_size)
      _ _ (zero_fill_agree b m0 m0')) as H.
    destruct (for_loop rows _ (zero_fill m0 b)) as [m |],
             (for_loop rows _ (zero_fill m0' b)) as [m' |];
      simpl in H; try contradiction; [| exact I].
    split; [reflexivity | apply agree_block_bytes; exact H].
  - unfold same_run, lcl_array3d_init. cbn [requests result].
    rewrite <- Hsame. split; [reflexivity |].
    set (len := alloc_len3d layers rows cols type_size).
    set (array := calloc 1 len).
    destruct (array =? 0); [exact I |].
    rewrite Z.mul_1_l. set (b := mkblock array len).
    destruct (ptr_add b array (layers * ptr_size)) as [rows_start |];
      cbn [obind]; [| exact I].
    pose proof (for_loop_agree b
      (fill_layer b array rows_start rows) layers
      (fill_layer_agree b array rows_start rows)
      _ _ (zero_fill_agree b m0 m0')) as H1.
    destruct (for_loop layers _ (zero_fill m0 b)) as [m1 |],
             (for_loop layers _ (zero_fill m0' b)) as [m1' |];
      simpl in H1; try contradiction; cbn [obind]; [| exact I].
    destruct (ptr_add b rows_start _) as [cols_start |];
      cbn [obind]; [| exact I].
    pose proof (for_loop_agree b
      (fun layer =>
         for_loop rows
           (fill_layer_row b array cols_start rows cols type_size layer))
      layers
      (fun layer m m' Hm =>
         for_loop_agree b
           (fill_layer_row b array cols_start rows cols type_size layer)
           rows
           (fill_layer_row_agree b array cols_start rows cols type_size layer)
           m m' Hm)
      m1 m1' H1) as H2.
    destruct (for_loop layers _ m1) as [m |],
             (for_loop layers _ m1') as [m' |];
      simpl in H2; try contradiction; [| exact I].
    split; [reflexivity | apply agree_block_bytes; exact H2].
Qed.

(** C3 (as amended).  Neither routine checks for overflow.  When the exact
    size exceeds [SIZE_MAX], the routine still makes its one [calloc]
    request, for the exact size reduced modulo [SIZE_MAX + 1] (so for fewer
    bytes than the array needs), and it returns [NULL] exactly when
    [calloc] returns [NULL] for that request. *)
Theorem overflow_wraps (calloc : Z -> Z -> Z) (m0 : mem) (c : call) :
  SIZE_MAX < total c ->
  requests (run_call calloc m0 c) = [(1, wrap (total c))]
  /\ wrap (total c) < total c
  /\ (result (run_call calloc m0 c) = Null
      <-> calloc 1 (wrap (total c)) = 0).
Proof.
  intros Hover.
  assert (Hlen : alloc_len c = wrap (total c)).
  { destruct c; [apply alloc_len2d_wrap | apply alloc_len3d_wrap]. }
  split; [| split].
  - destruct c; cbn [run_call alloc_len total] in *;
      [unfold lcl_array2d_init | unfold lcl_array3d_init];
      cbn [requests]; now rewrite Hlen.
  - pose proof (wrap_range (total c)). lia.
  - assert (Hres : result (run_call calloc m0 c) = Null
                   <-> calloc 1 (alloc_len c) = 0).
    { destruct c; cbn [run_call alloc_len];
        [unfold lcl_array2d_init | unfold lcl_array3d_init];
        cbn [result];
        (destruct (calloc 1 _ =? 0) eqn:E;
         [apply Z.eqb_eq in E; tauto |]);
        apply Z.eqb_neq in E;
        (split; [| intros H; contradiction]);
        match goal with
        | |- context [match ?o with Some _ => _ | None => _ end] =>
            destruct o; discriminate
        end. }
    now rewrite <- Hlen.
Qed.

Lemma load_ptr_out (b : block) (m : mem) (a : Z) :
  blk_base b + blk_len b < a + ptr_size -> load_ptr b m a = None.
Proof.
  intros H. unfold load_ptr.
  destruct (inside b a ptr_size) eqn:E; [| reflexivity].
  apply inside_true in E. lia.
Qed.


(** ** Beyond the claims: the block as an array *)

Lemma elem3d_same_tables (b : block) (m m' : mem)
    (handle type_size l r k p : Z) :
  load_ptr b m (handle + l * ptr_size) = Some p ->
  (forall x, handle + l * ptr_size <= x < handle + l * ptr_size + ptr_size ->
     m' x = m x) ->
  (forall x, p + r * ptr_size <= x < p + r * ptr_size + ptr_size ->
     m' x = m x) ->
  elem3d b m' handle type_size l r k = elem3d b m handle type_size l r k.
Proof.
  intros Hp H1 H2. unfold elem3d.
  rewrite (load_ptr_ext b m' m _ H1), Hp. cbn [obind].
  now rewrite (load_ptr_ext b m' m _ H2).
Qed.

Lemma in_shape_index (c : call) (l r k : Z) :
  fits c -> in_shape c l r k ->
  0 <= linear_index c l r k /\ linear_index c l r k + 1 <= elem_count c.
Proof.
  intros Hfit Hin.
  destruct c as [rows cols type_size | layers rows cols type_size];
    cbn [fits in_shape linear_index elem_count] in *.
  - apply linear_index_bound; tauto.
  - destruct Hin as (Hl & Hr & Hk).
    destruct (linear_index_bound l r layers rows Hl Hr) as [H0 H1].
    apply linear_index_bound; lia.
Qed.

(** Equal positions, equal indices. *)
Lemma same_elem_index (c : call) (l r k l' r' k' : Z) :
  in_shape c l r k -> in_shape c l' r' k' ->
  (same_elem c l r k l' r' k' = true
   <-> linear_index c l r k = linear_index c l' r' k').
Proof.
  intros Hin Hin'.
  destruct c as [rows cols type_size | layers rows cols type_size];
    cbn [in_shape linear_index same_elem] in *.
  - destruct Hin as [Hr Hk], Hin' as [Hr' Hk'].
    rewrite andb_true_iff, !Z.eqb_eq. split.
    + intros [-> ->]. reflexivity.
    + intros E. exact (linear_index_inj r k r' k' cols Hk Hk' E).
  - destruct Hin as (Hl & Hr & Hk), Hin' as (Hl' & Hr' & Hk').
    rewrite !andb_true_iff, !Z.eqb_eq. split.
    + intros [[-> ->] ->]. reflexivity.
    + intros E.
      destruct (linear_index_inj _ _ _ _ cols Hk Hk' E) as [E1 ->].
      destruct (linear_index_inj _ _ _ _ rows Hr Hr' E1) as [-> ->].
      repeat split.
Qed.

(** What a call within the contract builds, for either routine: the data
    region closes the block, and a subscript in shape resolves to its
    position in the data region, also after the data have been written
    to. *)
Lemma array_built (calloc : Z -> Z -> Z) (m0 : mem) (c : call) (base : Z) :
  fits c ->
  grants calloc (alloc_len c) base ->
  let b := mkblock base (alloc_len c) in
  let D := data_start base c in
  exists m,
    result (run_call calloc m0 c) = Handle base m
    /\ base <= D
    /\ 0 <= elem_size c
    /\ D + elem_count c * elem_size c = base + alloc_len c
    /\ (forall m',
          (forall x, base <= x < D -> m' x = m x) ->
          forall l r k, in_shape c l r k ->
            subscript b m' base c l r k
            = Some (D + linear_index c l r k * elem_size c))
    /\ (forall a, ~ (base <= a < D) -> m a = zero_fill m0 b a).
Proof.
  intros Hfit Hhost b D. subst b D.
  destruct c as [rows cols type_size | layers rows cols type_size];
    cbn [fits alloc_len run_call data_start elem_size elem_count subscript
         in_shape linear_index] in *.
  - destruct (array2d_built calloc m0 _ _ _ _ Hfit Hhost)
      as (m & Hrun & Hend & _ & Helem & Hf).
    destruct (fits2d_parts _ _ _ Hfit) as (Hp & _).
    destruct Hfit as (Hr & Hc & Ht & Hmax).
    unfold data_start2d in *.
    exists m. split; [exact Hrun |]. split; [lia |]. split; [exact Ht |].
    split; [exact Hend |]. split; [| exact Hf].
    intros m' Hsame l r k [Hr0 Hk0].
    rewrite <- (Helem r k Hr0 Hk0). apply elem2d_ext.
    intros x Hx. pose proof (slot_next r rows ptr_size).
    assert (0 <= r * ptr_size) by (apply Z.mul_nonneg_nonneg; lia).
    apply Hsame. lia.
  - destruct (array3d_built calloc m0 _ _ _ _ _ Hfit Hhost)
      as (m & Hrun & Hend & Hload1 & _ & Helem & Hf).
    destruct (fits3d_parts _ _ _ _ Hfit) as (Hp & Hn0 & Hnp & _).
    destruct Hfit as (Hl & Hr & Hc & Ht & Hmax).
    unfold data_start3d, second_start3d in *.
    exists m. split; [exact Hrun |]. split; [lia |]. split; [exact Ht |].
    split; [exact Hend |]. split; [| exact Hf].
    intros m' Hsame l r k (Hl0 & Hr0 & Hk0).
    rewrite <- (Helem l r k Hl0 Hr0 Hk0).
    destruct (linear_index_bound l r layers rows Hl0 Hr0) as [Hi0 Hi1].
    pose proof (slot_next l layers ptr_size).
    pose proof (slot_next (l * rows + r) (layers * rows) ptr_size).
    assert (0 <= l * ptr_size) by (apply Z.mul_nonneg_nonneg; lia).
    assert (0 <= (l * rows + r) * ptr_size)
      by (apply Z.mul_nonneg_nonneg; lia).
    apply (elem3d_same_tables _ _ _ _ _ _ _ _ _ (Hload1 l Hl0)).
    + intros x Hx. apply Hsame. lia.
    + intros x Hx. apply Hsame. lia.
Qed.

(** Elements at different positions share no byte. *)
Lemma positions_apart (D i j t : Z) :
  0 <= t -> i <> j -> apart (D + i * t, t) (D + j * t, t).
Proof.
  intros Ht Hne. unfold apart. cbn [fst snd].
  destruct (Z.lt_trichotomy i j) as [Hlt | [Heq | Hgt]];
    [left | contradiction | right].
  - pose proof (slot_next i j t Hlt Ht). lia.
  - pose proof (slot_next j i t Hgt Ht). lia.
Qed.

(** One assignment to an element in shape, on a memory whose pointer
    tables are as the routine left them. *)
Lemma write_elem_step (b : block) (c : call) (base D : Z) (m m1 : mem)
    (l r k : Z) (v : list Z) :
  fits c ->
  0 <= elem_size c ->
  (forall m',
     (forall x, base <= x < D -> m' x = m x) ->
     forall l r k, in_shape c l r k ->
       subscript b m' base c l r k
       = Some (D + linear_index c l r k * elem_size c)) ->
  (forall x, base <= x < D -> m1 x = m x) ->
  in_shape c l r k ->
  Z.of_nat (length v) = elem_size c ->
  let m2 := set_bytes m1 (D + linear_index c l r k * elem_size c) v in
  write_elem b m1 base c l r k v = Some m2
  /\ (forall x, base <= x < D -> m2 x = m x)
  /\ (forall l' r' k', in_shape c l' r' k' ->
        get_bytes m2 (D + linear_index c l' r' k' * elem_size c) (elem_size c)
        = if same_elem c l r k l' r' k' then v
          else get_bytes m1 (D + linear_index c l' r' k' * elem_size c)
                 (elem_size c)).
Proof.
  intros Hfit Ht Hsub H1 Hin Hv m2.
  destruct (in_shape_index c l r k Hfit Hin) as [Hi0 Hi1].
  assert (0 <= linear_index c l r k * elem_size c)
    by (apply Z.mul_nonneg_nonneg; lia).
  split; [| split].
  - unfold write_elem. rewrite (Hsub m1 H1 l r k Hin). reflexivity.
  - intros x Hx. subst m2. rewrite set_bytes_out by lia. apply H1. exact Hx.
  - intros l' r' k' Hin'.
    pose proof (same_elem_index c l r k l' r' k' Hin Hin') as Hsame.
    destruct (same_elem c l r k l' r' k').
    + rewrite <- (proj1 Hsame eq_refl). subst m2.
      rewrite <- Hv. apply get_set_bytes.
    + assert (Hne : linear_index c l r k <> linear_index c l' r' k').
      { intros E. apply Hsame in E. discriminate. }
      pose proof (positions_apart D _ _ _ Ht Hne) as Hap.
      unfold apart in Hap. cbn [fst snd] in Hap.
      apply get_bytes_ext. intros x Hx. subst m2.
      apply set_bytes_out. lia.
Qed.

(** X1.  For either routine, within the contract: a value stored at an
    element in shape is read back from it; any other element in shape has
    its bytes apart from it and reads as before the store.  For
    [lcl_array3d_init] this is [handle[l][r][k]]. *)
Theorem elem_round_trip (calloc : Z -> Z -> Z) (m0 : mem) (c : call)
    (base l r k l' r' k' : Z) (v : list Z) :
  fits c ->
  grants calloc (alloc_len c) base ->
  in_shape c l r k ->
  Z.of_nat (length v) = elem_size c ->
  let b := mkblock base (alloc_len c) in
  exists m m' a,
    result (run_call calloc m0 c) = Handle base m
    /\ subscript b m base c l r k = Some a
    /\ write_elem b m base c l r k v = Some m'
    /\ read_elem b m' base c l r k = Some v
    /\ (in_shape c l' r' k' -> same_elem c l r k l' r' k' = false ->
        exists a',
          subscript b m base c l' r' k' = Some a'
          /\ apart (a, elem_size c) (a', elem_size c)
          /\ read_elem b m' base c l' r' k' = read_elem b m base c l' r' k').
Proof.
  intros Hfit Hhost Hin Hv b.
  destruct (array_built calloc m0 c base Hfit Hhost)
    as (m & Hrun & HD & Ht & Hend & Hsub & _). fold b in Hsub.
  set (D := data_start base c) in *.
  destruct (write_elem_step b c base D m m l r k v Hfit Ht Hsub
              (fun x _ => eq_refl) Hin Hv) as (Hw & Hkeep & Hget).
  set (a := D + linear_index c l r k * elem_size c) in *.
  exists m, (set_bytes m a v), a.
  split; [exact Hrun |].
  split; [apply (Hsub m (fun x _ => eq_refl)); exact Hin |].
  split; [exact Hw |]. split.
  - unfold read_elem. rewrite (Hsub _ Hkeep l r k Hin). cbn [obind].
    rewrite (Hget l r k Hin).
    replace (same_elem c l r k l r k) with true; [reflexivity |].
    symmetry. apply (same_elem_index c l r k l r k Hin Hin). reflexivity.
  - intros Hin' Hdiff.
    exists (D + linear_index c l' r' k' * elem_size c).
    split; [apply (Hsub m (fun x _ => eq_refl)); exact Hin' |]. split.
    + apply positions_apart; [exact Ht |].
      intros E. apply (same_elem_index c l r k l' r' k' Hin Hin') in E.
      congruence.
    + unfold read_elem.
      rewrite (Hsub _ Hkeep l' r' k' Hin'),
              (Hsub m (fun x _ => eq_refl) l' r' k' Hin').
      cbn [obind]. rewrite (Hget l' r' k' Hin'), Hdiff. reflexivity.
Qed.

(** X2.  For either routine, within the contract, the returned block
    behaves as an array of zeros: after any run of assignments to elements
    in shape, each of them succeeds and every element in shape reads as the
    value last assigned to it, or as [elem_size] zero bytes when none
    was. *)
Theorem array_semantics (calloc : Z -> Z -> Z) (m0 : mem) (c : call)
    (base l r k : Z) (ws : list (Z * Z * Z * list Z)) :
  fits c ->
  grants calloc (alloc_len c) base ->
  writes_ok c ws ->
  in_shape c l r k ->
  let b := mkblock base (alloc_len c) in
  exists m m',
    result (run_call calloc m0 c) = Handle base m
    /\ write_all b m base c ws = Some m'
    /\ read_elem b m' base c l r k
       = Some (last_write c ws l r k
                 (repeat 0 (Z.to_nat (elem_size c)))).
Proof.
  intros Hfit Hhost Hws Hin b.
  destruct (array_built calloc m0 c base Hfit Hhost)
    as (m & Hrun & HD & Ht & Hend & Hsub & Hf). fold b in Hsub, Hf.
  set (D := data_start base c) in *.
  set (t := elem_size c) in *.
  set (a := D + linear_index c l r k * t).
  assert (Hgen : forall m1,
            (forall x, base <= x < D -> m1 x = m x) ->
            exists m',
              write_all b m1 base c ws = Some m'
              /\ (forall x, base <= x < D -> m' x = m x)
              /\ get_bytes m' a t = last_write c ws l r k (get_bytes m1 a t)).
  { induction Hws as [| [[[l1 r1] k1] v1] ws' [Hin1 Hv1] Hws' IH];
      intros m1 H1.
    - exists m1. repeat split; [exact H1].
    - destruct (write_elem_step b c base D m m1 l1 r1 k1 v1 Hfit Ht Hsub
                  H1 Hin1 Hv1) as (Hw & Hkeep & Hget).
      destruct (IH _ Hkeep) as (m' & Hall & Hkeep' & Hlast).
      exists m'. cbn [write_all last_write]. rewrite Hw. cbn [obind].
      split; [exact Hall |]. split; [exact Hkeep' |].
      rewrite Hlast. f_equal. apply (Hget l r k Hin). }
  destruct (Hgen m (fun x _ => eq_refl)) as (m' & Hall & Hkeep & Hlast).
  exists m, m'. split; [exact Hrun |]. split; [exact Hall |].
  unfold read_elem. rewrite (Hsub _ Hkeep l r k Hin). cbn [obind].
  fold t a. rewrite Hlast. do 2 f_equal.
  (* a fresh element is zero *)
  destruct (in_shape_index c l r k Hfit Hin) as [Hi0 Hi1].
  pose proof (slot_next (linear_index c l r k) (elem_count c) t) as Hs.
  assert (0 <= linear_index c l r k * t)
    by (apply Z.mul_nonneg_nonneg; lia).
  unfold get_bytes.
  apply nth_ext with (d := 0) (d' := 0).
  - now rewrite length_map, length_seq, repeat_length.
  - intros i Hi. rewrite length_map, length_seq in Hi.
    rewrite nth_repeat.
    set (f := fun i : nat => m (a + Z.of_nat i)).
    rewrite (nth_indep _ 0 (f 0%nat))
      by now rewrite length_map, length_seq.
    rewrite map_nth, seq_nth by assumption. unfold f. simpl.
    rewrite Hf by (subst a; lia).
    apply zero_fill_in. subst b a. simpl. lia.
Qed.

(** ** Beyond the claims: the call and the rest of memory *)

Lemma elem_count_nonneg (c : call) : fits c -> 0 <= elem_count c.
Proof.
  destruct c as [rows cols type_size | layers rows cols type_size];
    cbn [fits elem_count].
  - intros (Hr & Hc & _). apply Z.mul_nonneg_nonneg; lia.
  - intros (Hl & Hr & Hc & _).
    apply Z.mul_nonneg_nonneg; [apply Z.mul_nonneg_nonneg |]; lia.
Qed.

(** X6.  Within the contract, a call of either routine changes no byte
    outside the block [calloc] handed out. *)
Theorem call_frame (calloc : Z -> Z -> Z) (m0 : mem) (c : call)
    (base a : Z) :
  fits c ->
  grants calloc (alloc_len c) base ->
  ~ (base <= a < base + alloc_len c) ->
  exists m,
    result (run_call calloc m0 c) = Handle base m /\ m a = m0 a.
Proof.
  intros Hfit Hhost Ha.
  destruct (array_built calloc m0 c base Hfit Hhost)
    as (m & Hrun & HD & Ht & Hend & _ & Hf).
  pose proof (elem_count_nonneg c Hfit) as Hcount.
  assert (0 <= elem_count c * elem_size c)
    by (apply Z.mul_nonneg_nonneg; lia).
  exists m. split; [exact Hrun |].
  rewrite Hf by lia. apply zero_fill_out. simpl. exact Ha.
Qed.

(** Quotient and remainder of a position by a row length. *)
Lemma split_index (x n d : Z) :
  0 <= x < n * d -> 0 <= d ->
  0 <= x / d < n /\ 0 <= x mod d < d /\ x = x / d * d + x mod d.
Proof.
  intros Hx Hd.
  assert (Hd0 : 0 < d).
  { destruct (Z.eq_dec d 0) as [-> | E]; [rewrite Z.mul_0_r in Hx |]; lia. }
  split; [split |].
  - apply Z.div_pos; lia.
  - apply Z.div_lt_upper_bound; [exact Hd0 |]. rewrite Z.mul_comm. lia.
  - split; [apply Z.mod_pos_bound; exact Hd0 |].
    rewrite (Z.mul_comm (x / d)). apply Z.div_mod. lia.
Qed.

(** X7.  Within the contract and for elements of at least one byte, the
    data region has no slack: every byte from the data start to the end of
    the block belongs to an element in shape. *)
Theorem data_region_covered (calloc : Z -> Z -> Z) (m0 : mem) (c : call)
    (base a : Z) :
  fits c ->
  grants calloc (alloc_len c) base ->
  0 < elem_size c ->
  data_start base c <= a < base + alloc_len c ->
  exists m l r k e,
    result (run_call calloc m0 c) = Handle base m
    /\ in_shape c l r k
    /\ subscript (mkblock base (alloc_len c)) m base c l r k = Some e
    /\ e <= a < e + elem_size c.
Proof.
  intros Hfit Hhost Hsz Ha.
  destruct (array_built calloc m0 c base Hfit Hhost)
    as (m & Hrun & HD & Ht & Hend & Hsub & _).
  set (D := data_start base c) in *.
  set (t := elem_size c) in *.
  set (i := (a - D) / t).
  assert (Hi : 0 <= i < elem_count c /\ i * t <= a - D < i * t + t).
  { pose proof (Z.div_mod (a - D) t ltac:(lia)) as Hdm.
    pose proof (Z.mod_pos_bound (a - D) t Hsz) as Hmod.
    fold i in Hdm. rewrite (Z.mul_comm t i) in Hdm.
    split; [split |]; try lia.
    - subst i. apply Z.div_pos; lia.
    - subst i. apply Z.div_lt_upper_bound; [exact Hsz |].
      rewrite Z.mul_comm. lia. }
  destruct Hi as [Hi Hia].
  assert (Hidx : exists l r k, in_shape c l r k /\ linear_index c l r k = i).
  { destruct c as [rows cols type_size | layers rows cols type_size];
      cbn [fits in_shape linear_index elem_count] in *.
    - destruct Hfit as (Hr & Hc & _).
      destruct (split_index i rows cols Hi Hc) as (Hq & Hm & Heq).
      exists 0, (i / cols), (i mod cols). repeat split; lia.
    - destruct Hfit as (Hl & Hr & Hc & _).
      destruct (split_index i (layers * rows) cols Hi Hc) as (Hq & Hm & Heq).
      destruct (split_index (i / cols) layers rows Hq Hr)
        as (Hq' & Hm' & Heq').
      exists (i / cols / rows), ((i / cols) mod rows), (i mod cols).
      repeat split; lia. }
  destruct Hidx as (l & r & k & Hin & Hlin).
  exists m, l, r, k, (D + i * t).
  split; [exact Hrun |]. split; [exact Hin |]. split.
  - rewrite <- Hlin. apply (Hsub m (fun x _ => eq_refl)). exact Hin.
  - lia.
Qed.

(** ** Beyond the claims: arrays with a zero extent *)

Lemma empty2d_no_elements (calloc : Z -> Z -> Z) (m0 : mem)
    (rows cols type_size base r k : Z) :
  fits2d rows cols type_size ->
  grants calloc (alloc_len2d rows cols type_size) base ->
  rows * cols = 0 -> 0 < type_size -> 0 <= r -> 0 <= k ->
  exists m,
    result (lcl_array2d_init calloc m0 rows cols type_size) = Handle base m
    /\ data_start2d base rows = base + alloc_len2d rows cols type_size
    /\ elem2d (mkblock base (alloc_len2d rows cols type_size)) m base
         type_size r k = None.
Proof.
  intros Hfit Hhost Hzero Ht Hr Hk.
  destruct (array2d_built calloc m0 _ _ _ _ Hfit Hhost)
    as (m & Hrun & Hend & Hload & _ & _).
  destruct (fits2d_parts _ _ _ Hfit) as (Hp & _).
  destruct Hfit as (Hr0 & Hc0 & _).
  rewrite Hzero, Z.mul_0_l, Z.add_0_r in Hend.
  set (len := alloc_len2d rows cols type_size) in *.
  assert (HD : data_start2d base rows = base + rows * ptr_size)
    by reflexivity.
  assert (0 <= k * type_size) by (apply Z.mul_nonneg_nonneg; lia).
  exists m. split; [exact Hrun |]. split; [exact Hend |].
  unfold elem2d. destruct (Z_lt_le_dec r rows) as [Hlt | Hge].
  - rewrite Hload by lia. cbn [obind].
    assert (Hcols : cols = 0).
    { apply Z.mul_eq_0 in Hzero. lia. }
    rewrite Hcols, Z.mul_0_r, Z.mul_0_l, Z.add_0_r.
    destruct (inside _ _ type_size) eqn:E; [| reflexivity].
    apply inside_true in E. simpl in E. lia.
  - pose proof (prod_mono rows r ptr_size ltac:(lia) ltac:(lia)).
    rewrite load_ptr_out by (simpl; lia). reflexivity.
Qed.

Lemma empty3d_no_elements (calloc : Z -> Z -> Z) (m0 : mem)
    (layers rows cols type_size base l r k : Z) :
  fits3d layers rows cols type_size ->
  grants calloc (alloc_len3d layers rows cols type_size) base ->
  layers * rows * cols = 0 -> 0 < type_size ->
  0 <= l -> 0 <= r -> 0 <= k ->
  exists m,
    result (lcl_array3d_init calloc m0 layers rows cols type_size)
    = Handle base m
    /\ data_start3d base layers rows
       = base + alloc_len3d layers rows cols type_size
    /\ elem3d (mkblock base (alloc_len3d layers rows cols type_size)) m base
         type_size l r k = None.
Proof.
  intros Hfit Hhost Hzero Ht Hl Hr Hk.
  destruct (array3d_post calloc m0 _ _ _ _ _ Hfit Hhost)
    as (m & Hrun & Hs1 & Hs2 & _).
  destruct (fits3d_parts _ _ _ _ Hfit) as (Hp & Hn0 & Hnp & _ & Hlen).
  destruct Hfit as (Hl0 & Hr0 & Hc0 & _).
  unfold total3d in Hlen. rewrite Hzero, Z.mul_0_l, Z.add_0_r in Hlen.
  set (len := alloc_len3d layers rows cols type_size) in *.
  set (b := mkblock base len).
  set (n := layers * rows) in *.
  set (S := second_start3d base layers) in *.
  set (D := data_start3d base layers rows) in *.
  assert (HS : S = base + layers * ptr_size) by reflexivity.
  assert (HD : D = S + n * ptr_size) by reflexivity.
  assert (0 <= k * type_size) by (apply Z.mul_nonneg_nonneg; lia).
  assert (0 <= r * ptr_size) by (apply Z.mul_nonneg_nonneg; lia).
  exists m. rewrite Hrun. split; [reflexivity |]. split; [lia |].
  (* every slot of the second table points at the end of the block *)
  assert (Hslot : forall i, 0 <= i < n ->
            load_ptr b m (S + i * ptr_size) = Some D).
  { intros i Hi.
    pose proof (slot_next i n ptr_size ltac:(lia) ltac:(lia)).
    assert (0 <= i * ptr_size) by (apply Z.mul_nonneg_nonneg; lia).
    rewrite load_ptr_in by (simpl; lia). f_equal.
    rewrite Hs2 by exact Hi.
    assert (Hcols : cols = 0).
    { apply Z.mul_eq_0 in Hzero. lia. }
    rewrite Hcols, Z.mul_0_r, Z.mul_0_l. lia. }
  assert (Hpast : forall q, D <= q ->
            (x <- load_ptr b m (q + r * ptr_size) ;;
             if inside b (x + k * type_size) type_size
             then Some (x + k * type_size) else None) = None).
  { intros q Hq. rewrite load_ptr_out by (simpl; lia). reflexivity. }
  assert (Hlast : (if inside b (D + k * type_size) type_size
                   then Some (D + k * type_size) else None) = None).
  { destruct (inside b _ type_size) eqn:E; [| reflexivity].
    apply inside_true in E. simpl in E. lia. }
  unfold elem3d. fold b.
  destruct (Z_lt_le_dec l layers) as [Hlt | Hge].
  - pose proof (slot_next l layers ptr_size ltac:(lia) ltac:(lia)).
    assert (0 <= l * ptr_size) by (apply Z.mul_nonneg_nonneg; lia).
    rewrite load_ptr_in by (simpl; lia). cbn [obind].
    rewrite Hs1 by lia. fold S.
    replace (S + l * rows * ptr_size + r * ptr_size)
      with (S + (l * rows + r) * ptr_size) by ring.
    assert (0 <= l * rows) by (apply Z.mul_nonneg_nonneg; lia).
    destruct (Z_lt_le_dec (l * rows + r) n) as [Hin | Hout].
    + rewrite Hslot by lia. cbn [obind]. exact Hlast.
    + pose proof (prod_mono n (l * rows + r) ptr_size ltac:(lia) ltac:(lia)).
      rewrite load_ptr_out by (simpl; lia). reflexivity.
  - destruct (Z_lt_le_dec (l - layers) n) as [Hin | Hout].
    + replace (base + l * ptr_size) with (S + (l - layers) * ptr_size)
        by (rewrite HS; ring).
      rewrite Hslot by lia. cbn [obind]. apply Hpast. lia.
    + pose proof (prod_mono (layers + n) l ptr_size ltac:(lia) ltac:(lia)).
      rewrite load_ptr_out by (simpl; lia). reflexivity.
Qed.

(** X8.  Within the contract, for elements of at least one byte: when an
    extent is zero the data region is empty, it starts where the block
    ends, and whatever non-negative indices are used, [handle[r][k]]
    (or [handle[l][r][k]]) is not an element inside the block. *)
Theorem empty_array_no_elements (calloc : Z -> Z -> Z) (m0 : mem) (c : call)
    (base l r k : Z) :
  fits c ->
  grants calloc (alloc_len c) base ->
  elem_count c = 0 -> 0 < elem_size c ->
  0 <= l -> 0 <= r -> 0 <= k ->
  exists m,
    result (run_call calloc m0 c) = Handle base m
    /\ data_start base c = base + alloc_len c
    /\ subscript (mkblock base (alloc_len c)) m base c l r k = None.
Proof.
  intros Hfit Hhost Hzero Ht Hl Hr Hk.
  destruct c as [rows cols type_size | layers rows cols type_size];
    cbn [fits alloc_len run_call data_start elem_size elem_count subscript]
      in *.
  - now apply empty2d_no_elements.
  - now apply empty3d_no_elements.
Qed.

End Platform.

(** ** The model at work: 64-bit [size_t], 8-byte pointers *)

(** Closed side conditions are settled by running the definitions. *)
Ltac by_eval :=
  vm_compute;
  repeat match goal with
         | |- _ /\ _ => split
         | |- _ -> _ => intro
         end;
  first [reflexivity | discriminate | assumption].

(** A 2 x 3 array of 4-byte elements, row 1, column 2. *)
Lemma array2d_row_table_witness :
  exists m,
    result (lcl_array2d_init 64 8 calloc_at_4096 dirty_mem 2 3 4)
    = Handle 4096 m
    /\ data_start2d 8 4096 2 = 4096 + 2 * 8
    /\ load_ptr 8 (mkblock 4096 (alloc_len2d 64 8 2 3 4)) m (4096 + 1 * 8)
       = Some (data_start2d 8 4096 2 + 1 * 3 * 4)
    /\ (0 <= 2 < 3 ->
        elem2d 8 (mkblock 4096 (alloc_len2d 64 8 2 3 4)) m 4096 4 1 2
        = Some (data_start2d 8 4096 2 + (1 * 3 + 2) * 4)).
Proof. apply array2d_row_table; by_eval. Defined.

(** A 2 x 3 x 4 array of 4-byte elements, layer 1, row 2, column 3. *)
Lemma array3d_pointer_tables_witness :
  exists m,
    result (lcl_array3d_init 64 8 calloc_at_4096 dirty_mem 2 3 4 4)
    = Handle 4096 m
    /\ load_ptr 8 (mkblock 4096 (alloc_len3d 64 8 2 3 4 4)) m (4096 + 1 * 8)
       = Some (second_start3d 8 4096 2 + 1 * 3 * 8)
    /\ (0 <= 2 < 3 ->
        load_ptr 8 (mkblock 4096 (alloc_len3d 64 8 2 3 4 4)) m
          (second_start3d 8 4096 2 + (1 * 3 + 2) * 8)
        = Some (data_start3d 8 4096 2 3 + 4 * 4 * (2 + 1 * 3)))
    /\ (0 <= 2 < 3 -> 0 <= 3 < 4 ->
        elem3d 8 (mkblock 4096 (alloc_len3d 64 8 2 3 4 4)) m 4096 4 1 2 3
        = Some (data_start3d 8 4096 2 3 + ((1 * 3 + 2) * 4 + 3) * 4)).
Proof. apply array3d_pointer_tables; by_eval. Defined.

(** The regions of the 2 x 3 x 4 array: 16, 48 and 96 bytes; layer 1,
    row 2. *)
Lemma array3d_regions_witness :
  let b := mkblock 4096 (alloc_len3d 64 8 2 3 4 4) in
  let top := (4096, 2 * 8) in
  let second := (second_start3d 8 4096 2, 2 * 3 * 8) in
  let data := (data_start3d 8 4096 2 3, 2 * 3 * 4 * 4) in
  (0 <= snd top /\ 0 <= snd second /\ 0 <= snd data)
  /\ (fst top + snd top = fst second /\ fst second + snd second = fst data
      /\ fst data + snd data = blk_base b + blk_len b)
  /\ (apart top second /\ apart top data /\ apart second data)
  /\ exists m,
       result (lcl_array3d_init 64 8 calloc_at_4096 dirty_mem 2 3 4 4)
       = Handle 4096 m
       /\ (0 <= 1 < 2 ->
           exists p,
             load_ptr 8 b m (4096 + 1 * 8) = Some p
             /\ fst second <= p
             /\ p + 3 * 8 <= fst second + snd second
             /\ (0 <= 2 < 3 ->
                 exists q,
                   load_ptr 8 b m (p + 2 * 8) = Some q
                   /\ fst data <= q
                   /\ q + 4 * 4 <= fst data + snd data)).
Proof. apply array3d_regions; by_eval. Defined.

(** The last byte of the 2 x 3 x 4 array, over memory that held [0xFF]. *)
Lemma data_region_zero_witness :
  exists m,
    result (run_call 64 8 calloc_at_4096 dirty_mem (Array3d 2 3 4 4))
    = Handle 4096 m
    /\ m 4255
       = zero_fill dirty_mem
           (mkblock 4096 (alloc_len 64 8 (Array3d 2 3 4 4))) 4255
    /\ m 4255 = 0.
Proof. apply data_region_zero; by_eval. Defined.

(** Storing the 4-byte value 1 at [handle[1][2]] of a 2 x 3 array. *)
Lemma array2d_round_trip_witness :
  let b := mkblock 4096 (alloc_len2d 64 8 2 3 4) in
  exists m m' a,
    result (lcl_array2d_init 64 8 calloc_at_4096 dirty_mem 2 3 4)
    = Handle 4096 m
    /\ elem2d 8 b m 4096 4 1 2 = Some a
    /\ write2d 8 b m 4096 4 1 2 [1; 0; 0; 0] = Some m'
    /\ read2d 8 b m' 4096 4 1 2 = Some [1; 0; 0; 0]
    /\ (0 <= 0 < 2 -> 0 <= 1 < 3 -> (0, 1) <> (1, 2) ->
        exists a',
          elem2d 8 b m 4096 4 0 1 = Some a'
          /\ apart (a, 4) (a', 4)
          /\ read2d 8 b m' 4096 4 0 1 = read2d 8 b m 4096 4 0 1).
Proof. apply array2d_round_trip; by_eval. Defined.


(** Three rows of five zero-size elements. *)
Lemma zero_size_rows_alias_witness :
  exists m,
    result (lcl_array2d_init 64 8 calloc_at_4096 dirty_mem 3 5 0)
    = Handle 4096 m
    /\ load_ptr 8 (mkblock 4096 (alloc_len2d 64 8 3 5 0)) m (4096 + 1 * 8)
       = Some (data_start2d 8 4096 3)
    /\ data_start2d 8 4096 3 = 4096 + alloc_len2d 64 8 3 5 0.
Proof. apply zero_size_rows_alias; by_eval. Defined.

(** Two hosts and two prior memories, one block. *)
Lemma deterministic_witness :
  same_run (alloc_len 64 8 (Array3d 2 3 4 4))
    (run_call 64 8 calloc_at_4096 dirty_mem (Array3d 2 3 4 4))
    (run_call 64 8 calloc_null_on_zero clean_mem (Array3d 2 3 4 4)).
Proof. apply deterministic; by_eval. Defined.

(** [SIZE_MAX] for every argument of the 2D routine. *)
Lemma overflow_wraps_witness :
  requests
    (run_call 64 8 calloc_at_4096 dirty_mem
       (Array2d (SIZE_MAX 64) (SIZE_MAX 64) (SIZE_MAX 64)))
  = [(1, wrap 64
           (total 8 (Array2d (SIZE_MAX 64) (SIZE_MAX 64) (SIZE_MAX 64))))]
  /\ wrap 64 (total 8 (Array2d (SIZE_MAX 64) (SIZE_MAX 64) (SIZE_MAX 64)))
     < total 8 (Array2d (SIZE_MAX 64) (SIZE_MAX 64) (SIZE_MAX 64))
  /\ (result
        (run_call 64 8 calloc_at_4096 dirty_mem
           (Array2d (SIZE_MAX 64) (SIZE_MAX 64) (SIZE_MAX 64)))
      = Null
      <-> calloc_at_4096 1
            (wrap 64
               (total 8 (Array2d (SIZE_MAX 64) (SIZE_MAX 64) (SIZE_MAX 64))))
          = 0).
Proof. apply overflow_wraps; by_eval. Defined.


(** ** Where the code departs from the specification *)

(** C3: for [rows = cols = type_size = SIZE_MAX] the exact size overflows;
    the routine nevertheless calls [calloc], asking for [2^64 - 9] bytes,
    and with a host that grants the request the outcome is not [NULL]: the
    pointer arithmetic leaves the block.  For [rows = 2^61 + 1] and
    [cols = type_size = 0] the request wraps to 8 bytes, room for one of
    the [2^61 + 1] row pointers.  The 3D routine with all four arguments
    [SIZE_MAX] asks for one byte. *)
Lemma overflow_not_detected :
  SIZE_MAX 64 < total 8 (Array2d (SIZE_MAX 64) (SIZE_MAX 64) (SIZE_MAX 64))
  /\ requests
       (lcl_array2d_init 64 8 calloc_at_4096 dirty_mem
          (SIZE_MAX 64) (SIZE_MAX 64) (SIZE_MAX 64))
     = [(1, 18446744073709551607)]
  /\ result
       (lcl_array2d_init 64 8 calloc_at_4096 dirty_mem
          (SIZE_MAX 64) (SIZE_MAX 64) (SIZE_MAX 64))
     = Undefined
  /\ SIZE_MAX 64 < total 8 (Array2d (2 ^ 61 + 1) 0 0)
  /\ lcl_array2d_init 64 8 calloc_at_4096 dirty_mem (2 ^ 61 + 1) 0 0
     = mkrun [(1, 8)] Undefined
  /\ requests
       (lcl_array3d_init 64 8 calloc_at_4096 dirty_mem
          (SIZE_MAX 64) (SIZE_MAX 64) (SIZE_MAX 64) (SIZE_MAX 64))
     = [(1, 1)].
Proof. by_eval. Qed.


(** C9: with [type_size = 0] and [rows = 2^61], [rows * 8] wraps to [0];
    the host grants the request of zero bytes, and the routine does not
    return the block: [array + rows] is outside it. *)
Lemma zero_size_rows_overflow :
  0 < 2 ^ 61
  /\ alloc_len2d 64 8 (2 ^ 61) 1 0 = 0
  /\ calloc_at_4096 1 (alloc_len2d 64 8 (2 ^ 61) 1 0) <> 0
  /\ result (lcl_array2d_init 64 8 calloc_at_4096 dirty_mem (2 ^ 61) 1 0)
     = Undefined.
Proof. by_eval. Qed.

(** ** The further properties at work *)

(** Storing 1 at [handle[1][2][3]] of a 2 x 3 x 4 array of 4-byte elements;
    [handle[0][1][2]] is another element. *)
Lemma elem_round_trip_witness :
  let b := mkblock 4096 (alloc_len 64 8 (Array3d 2 3 4 4)) in
  exists m m' a,
    result (run_call 64 8 calloc_at_4096 dirty_mem (Array3d 2 3 4 4))
    = Handle 4096 m
    /\ subscript 8 b m 4096 (Array3d 2 3 4 4) 1 2 3 = Some a
    /\ write_elem 8 b m 4096 (Array3d 2 3 4 4) 1 2 3 [1; 0; 0; 0] = Some m'
    /\ read_elem 8 b m' 4096 (Array3d 2 3 4 4) 1 2 3 = Some [1; 0; 0; 0]
    /\ (in_shape (Array3d 2 3 4 4) 0 1 2 ->
        same_elem (Array3d 2 3 4 4) 1 2 3 0 1 2 = false ->
        exists a',
          subscript 8 b m 4096 (Array3d 2 3 4 4) 0 1 2 = Some a'
          /\ apart (a, elem_size (Array3d 2 3 4 4))
                   (a', elem_size (Array3d 2 3 4 4))
          /\ read_elem 8 b m' 4096 (Array3d 2 3 4 4) 0 1 2
             = read_elem 8 b m 4096 (Array3d 2 3 4 4) 0 1 2).
Proof. apply elem_round_trip; by_eval. Defined.

(** Three assignments to the 2 x 3 x 4 array, two of them to
    [handle[1][2][3]]. *)
Lemma array_semantics_witness :
  let b := mkblock 4096 (alloc_len 64 8 (Array3d 2 3 4 4)) in
  let ws := [(1, 2, 3, [1; 0; 0; 0]); (0, 0, 0, [7; 0; 0; 0]);
             (1, 2, 3, [2; 0; 0; 0])] in
  exists m m',
    result (run_call 64 8 calloc_at_4096 dirty_mem (Array3d 2 3 4 4))
    = Handle 4096 m
    /\ write_all 8 b m 4096 (Array3d 2 3 4 4) ws = Some m'
    /\ read_elem 8 b m' 4096 (Array3d 2 3 4 4) 1 2 3
       = Some (last_write (Array3d 2 3 4 4) ws 1 2 3
                 (repeat 0 (Z.to_nat (elem_size (Array3d 2 3 4 4))))).
Proof.
  apply array_semantics;
    first [by_eval | repeat (constructor; [by_eval |]); constructor].
Defined.

(** The byte after the 40-byte block of a 2 x 3 array keeps its [0xFF]. *)
Lemma call_frame_witness :
  exists m,
    result (run_call 64 8 calloc_at_4096 dirty_mem (Array2d 2 3 4))
    = Handle 4096 m
    /\ m 4136 = dirty_mem 4136.
Proof.
  apply call_frame;
    first [by_eval | (vm_compute; intros [_ H]; discriminate H)].
Defined.

(** The last byte of the 2 x 3 x 4 array belongs to an element. *)
Lemma data_region_covered_witness :
  exists m l r k e,
    result (run_call 64 8 calloc_at_4096 dirty_mem (Array3d 2 3 4 4))
    = Handle 4096 m
    /\ in_shape (Array3d 2 3 4 4) l r k
    /\ subscript 8 (mkblock 4096 (alloc_len 64 8 (Array3d 2 3 4 4))) m 4096
         (Array3d 2 3 4 4) l r k
       = Some e
    /\ e <= 4255 < e + elem_size (Array3d 2 3 4 4).
Proof. apply data_region_covered; by_eval. Defined.

(** Two layers of no rows. *)
Lemma empty_array_no_elements_witness :
  exists m,
    result (run_call 64 8 calloc_at_4096 dirty_mem (Array3d 2 0 5 4))
    = Handle 4096 m
    /\ data_start 8 4096 (Array3d 2 0 5 4)
       = 4096 + alloc_len 64 8 (Array3d 2 0 5 4)
    /\ subscript 8 (mkblock 4096 (alloc_len 64 8 (Array3d 2 0 5 4))) m 4096
         (Array3d 2 0 5 4) 1 0 0
       = None.
Proof. apply empty_array_no_elements; by_eval. Defined.
